(** * Boids: a shallow embedding of [src/main.cc] and its flocking rules

    The program simulates a flock of [Boid]s.  Every tick, [update_boids]
    walks the flock in index order and calls [Boid::update] on each member,
    passing the flock itself as the neighbour source.

    Number models.  The C++ [float] is modelled twice.  The first model is
    the real numbers [R]: rounding, infinities and NaN are outside it, and
    [kPi<float>] is the real [PI]; an implicit conversion of an integer to
    [float] is written [IZR]/[INR].  It carries the statements about the
    structure of the computation: which boids are read and in which order,
    which branch runs, where a position is wrapped, which direction a
    heading stands for.  The second model,
    module [Binary32], is IEEE 754 single precision, every operation
    rounded; it carries the statements about the values the code stores.
    The C++ [int] members are modelled by [Z] (the only products the code
    forms are [size_ * factor], far from overflow for the values the class
    gives them) and [unsigned] window sizes by [N]. *)

From Stdlib Require Import Reals Lra Lia ZArith List SpecFloat.
From stdpp Require Import base decidable list.

#[local] Open Scope R_scope.

(** ** Decidable comparisons on [R], as used by the C++ conditions *)

#[global] Instance Rlt_decision : RelDecision Rlt := Rlt_dec.
#[global] Instance Rgt_decision : RelDecision Rgt := Rgt_dec.

(** ** The part of SFML the core uses

    SFML is a library the program links against; its headers and sources
    are not under src/.  The definitions below give the few types and
    operations [main.cc] uses, on the reals. *)

Module sf.

(** Modelled from the spec: [sf::Vector2<T>] (SFML, not under src/), the
    "2D vector" of section 3: two coordinates [x] and [y]. *)
Record Vector2 (T : Type) : Type := mkVector2 { x : T; y : T }.
Arguments mkVector2 {T} _ _.
Arguments x {T} _.
Arguments y {T} _.

(** Modelled from the spec: [sf::Vector2f] and [sf::Vector2u] (SFML), the
    real-valued position and the non-negative window size of section 6. *)
Definition Vector2f : Type := Vector2 R.
Definition Vector2u : Type := Vector2 N.

(** Modelled from the spec: [operator-] of [sf::Vector2f] (SFML),
    coordinate-wise. *)
Definition sub (a b : Vector2f) : Vector2f :=
  mkVector2 (x a - x b) (y a - y b).

(** Modelled from the spec: [operator+=] of [sf::Vector2f] (SFML),
    coordinate-wise: "add displacement to position" in section 4.1. *)
Definition add (a b : Vector2f) : Vector2f :=
  mkVector2 (x a + x b) (y a + y b).

(** Assignment to one coordinate of a vector, as in [pos_.x = 0]. *)
Definition set_x {T} (v : Vector2 T) (c : T) : Vector2 T := mkVector2 c (y v).
Definition set_y {T} (v : Vector2 T) (c : T) : Vector2 T := mkVector2 (x v) c.

(** Modelled from the spec: [sf::Color] (SFML), the cosmetic colour of
    section 3, four channels. *)
Record Color : Type := mkColor { r : N; g : N; b : N; a : N }.

(** Modelled from the spec: [sf::Color::White] (SFML). *)
Definition White : Color := mkColor 255 255 255 255.

(** Modelled from the spec: [sf::Transform] (SFML, not under src/).
    Section 4.1 fixes what the core needs of it: heading 0 points along
    negative Y and a positive heading turns clockwise.  The model is the
    affine part of SFML's matrix, rows [a00 a01 a02] and [a10 a11 a12]. *)
Record Transform : Type := mkTransform
  { a00 : R; a01 : R; a02 : R;
    a10 : R; a11 : R; a12 : R }.

(** Modelled from the spec: the default-constructed [sf::Transform], the
    identity. *)
Definition Identity : Transform := mkTransform 1 0 0 0 1 0.

(** Modelled from the spec: [sf::Transform::combine], the matrix product. *)
Definition combine (t u : Transform) : Transform :=
  mkTransform
    (a00 t * a00 u + a01 t * a10 u)
    (a00 t * a01 u + a01 t * a11 u)
    (a00 t * a02 u + a01 t * a12 u + a02 t)
    (a10 t * a00 u + a11 t * a10 u)
    (a10 t * a01 u + a11 t * a11 u)
    (a10 t * a02 u + a11 t * a12 u + a12 t).

(** Modelled from the spec: [sf::Transform::rotate], which combines the
    transform with the rotation of [angle] degrees. *)
Definition rotate (t : Transform) (angle : R) : Transform :=
  let rad := angle * PI / 180 in
  combine t (mkTransform (cos rad) (- sin rad) 0 (sin rad) (cos rad) 0).

(** Modelled from the spec: [sf::Transform::transformPoint], the matrix
    applied to the point [(px, py)]. *)
Definition transformPoint (t : Transform) (px py : R) : Vector2f :=
  mkVector2 (a00 t * px + a01 t * py + a02 t)
            (a10 t * px + a11 t * py + a12 t).

End sf.

(** ** Geometry utilities (main.cc, lines 6-18) *)

Definition kPi : R := PI.

Definition distance_2d (a b : sf.Vector2f) : R :=
  let diff := sf.sub a b in
  sqrt (sf.x diff * sf.x diff + sf.y diff * sf.y diff).

Definition rad2deg (rad : R) : R := (rad * 180) / kPi.

(** Modelled from the spec: [std::atan2] is the C library's, not under
    src/.  Section 4.4 uses it as the total two-argument arctangent; this
    is its usual definition by quadrant, with values in (-PI, PI]. *)
Definition atan2 (py px : R) : R :=
  if decide (0 < px) then atan (py / px)
  else if decide (px < 0) then
    (if decide (py < 0) then atan (py / px) - PI else atan (py / px) + PI)
  else if decide (0 < py) then PI / 2
  else if decide (py < 0) then - PI / 2
  else 0.

(** ** The agent (main.cc, lines 23-165) *)

Record Boid : Type := mkBoid
  { pos_ : sf.Vector2f;
    rot_ : R;
    col_ : sf.Color;
    size_ : Z;
    move_speed_ : Z;
    kSeparationDistanceFactor : Z;
    kAlignmentDistanceFactor : Z;
    kCohesionDistanceFactor : Z }.

(** The two constructors: the default one and [Boid(pos, rot, col)].  Both
    leave the last five members at their default member initialisers. *)
Definition Boid_default : Boid :=
  mkBoid (sf.mkVector2 0 0) 0 sf.White 10 200 3 9 14.

Definition Boid_new (pos : sf.Vector2f) (rot : R) (col : sf.Color) : Boid :=
  mkBoid pos rot col 10 200 3 9 14.

(** Assignments to [pos_] and [rot_]. *)
Definition set_pos (self : Boid) (p : sf.Vector2f) : Boid :=
  mkBoid p (rot_ self) (col_ self) (size_ self) (move_speed_ self)
    (kSeparationDistanceFactor self) (kAlignmentDistanceFactor self)
    (kCohesionDistanceFactor self).

Definition set_rot (self : Boid) (rot : R) : Boid :=
  mkBoid (pos_ self) rot (col_ self) (size_ self) (move_speed_ self)
    (kSeparationDistanceFactor self) (kAlignmentDistanceFactor self)
    (kCohesionDistanceFactor self).

Definition position (self : Boid) : sf.Vector2f := pos_ self.
Definition rotation (self : Boid) : R := rot_ self.
Definition color (self : Boid) : sf.Color := col_ self.
Definition size (self : Boid) : Z := size_ self.

Definition cohesion_distance (self : Boid) : Z :=
  (size_ self * kCohesionDistanceFactor self)%Z.
Definition alignment_distance (self : Boid) : Z :=
  (size_ self * kAlignmentDistanceFactor self)%Z.
Definition separation_distance (self : Boid) : Z :=
  (size_ self * kSeparationDistanceFactor self)%Z.

(** [using Boids = std::array<Boid, 40>]: the flock.  The model takes a
    list of any length; the program's flock has 40 members. *)
Abbreviation Boids := (list Boid) (only parsing).

(** [get_flockmates]: the members of [boids], in order, whose distance to
    this boid's position is strictly below [distance]. *)
Definition get_flockmates (self : Boid) (boids : list Boid) (distance : Z)
  : list Boid :=
  filter (fun local_flockmate =>
            distance_2d (pos_ self) (pos_ local_flockmate) < IZR distance)
         boids.

(** [center_of_mass]: [std::accumulate] from [sf::Vector2f()], adding each
    member's coordinates divided by the size of the set. *)
Definition center_of_mass (boids : list Boid) : sf.Vector2f :=
  fold_left
    (fun result local_flockmate =>
       sf.mkVector2
         (sf.x result + sf.x (pos_ local_flockmate) / INR (length boids))
         (sf.y result + sf.y (pos_ local_flockmate) / INR (length boids)))
    boids (sf.mkVector2 0 0).

(** ** [Boid::update] (main.cc, lines 39-104)

    [update] is a method of an element of the very array it receives as
    [boids]: the write to [pos_] is visible through [boids] when the
    flockmates are collected.  The model keeps the array as the store and
    the receiver as the index [this] into it; the two phases of the body
    are [update_position] (lines 41-61) and [update_heading] (lines 63-103). *)

(** Conversion of an [unsigned] window coordinate to [float]. *)
Definition u2f (n : N) : R := IZR (Z.of_N n).

Definition update_position (dt : R) (self : Boid) (window_size : sf.Vector2u)
  : Boid :=
  let rotation := sf.rotate sf.Identity (rot_ self) in
  let kDeltaSpeed := IZR (move_speed_ self) * dt in
  let p := sf.add (pos_ self) (sf.transformPoint rotation 0 (- kDeltaSpeed)) in
  let p := if decide (sf.x p < 0)
           then sf.set_x p (u2f (sf.x window_size)) else p in
  let p := if decide (sf.x p > u2f (sf.x window_size))
           then sf.set_x p 0 else p in
  let p := if decide (sf.y p < 0)
           then sf.set_y p (u2f (sf.y window_size)) else p in
  let p := if decide (sf.y p > u2f (sf.y window_size))
           then sf.set_y p 0 else p in
  set_pos self p.

(** The three tiers, each filtered out of the previous one. *)
Definition kCohesionFlockmates (self : Boid) (boids : list Boid) : list Boid :=
  get_flockmates self boids (cohesion_distance self).

Definition kAlignmentFlockmates (self : Boid) (boids : list Boid) : list Boid :=
  get_flockmates self (kCohesionFlockmates self boids) (alignment_distance self).

Definition kSeparationFlockmates (self : Boid) (boids : list Boid) : list Boid :=
  get_flockmates self (kAlignmentFlockmates self boids) (separation_distance self).

(** The [std::accumulate] of lines 86-94. *)
Definition kAverageRotation (flockmates : list Boid) : R :=
  fold_left
    (fun result boid => result + rot_ boid / INR (length flockmates))
    flockmates 0.

(** Lines 80-82 and 98-99: the angle, in degrees, from this boid to a
    centre of mass. *)
Definition kBoidToCenterOfMassRotation (self : Boid) (center : sf.Vector2f) : R :=
  rad2deg (atan2 (sf.y center - sf.y (pos_ self))
                 (sf.x center - sf.x (pos_ self))).

Definition update_heading (self : Boid) (boids : list Boid) : Boid :=
  let cohesion := kCohesionFlockmates self boids in
  if decide (length cohesion = 1%nat) then self
  else
    let kCohesionFlockmateCenterOfMass := center_of_mass cohesion in
    let alignment := kAlignmentFlockmates self boids in
    let kAlignmentFlockmateCenterOfMass := center_of_mass alignment in
    let separation := kSeparationFlockmates self boids in
    let kSeparationFlockmateCenterOfMass := center_of_mass separation in
    if decide (1 < length separation)%nat then
      set_rot self
        (kBoidToCenterOfMassRotation self kSeparationFlockmateCenterOfMass
         + 90 + 180)
    else if decide (1 < length alignment)%nat then
      set_rot self (kAverageRotation alignment)
    else if decide (1 < length cohesion)%nat then
      set_rot self
        (kBoidToCenterOfMassRotation self kCohesionFlockmateCenterOfMass + 90)
    else self.

(** The arguments of the [center_of_mass] calls [update] makes, in program
    order: none before the early return, then the three tiers. *)
Definition center_of_mass_calls (self : Boid) (boids : list Boid)
  : list (list Boid) :=
  if decide (length (kCohesionFlockmates self boids) = 1%nat) then []
  else [ kCohesionFlockmates self boids;
         kAlignmentFlockmates self boids;
         kSeparationFlockmates self boids ].

(** What the receiver reads as [boids] once it has moved: the array with
    its own slot already overwritten. *)
Definition neighbor_source (dt : R) (boids : Boids) (this : nat)
    (window_size : sf.Vector2u) : Boids :=
  match boids !! this with
  | Some self => <[this := update_position dt self window_size]> boids
  | None => boids
  end.

Definition update (dt : R) (boids : Boids) (this : nat)
    (window_size : sf.Vector2u) : Boids :=
  let source := neighbor_source dt boids this window_size in
  match source !! this with
  | Some self => <[this := update_heading self source]> source
  | None => source
  end.

(** ** [update_boids] (main.cc, lines 251-257)

    [tick_prefix k] is the array when the range-for loop has completed its
    first [k] iterations; the whole tick is the loop run over every index. *)
Definition tick_prefix (dt : R) (boids : Boids) (window_size : sf.Vector2u)
    (k : nat) : Boids :=
  fold_left (fun st this => update dt st this window_size) (seq 0 k) boids.

Definition update_boids (dt : R) (boids : Boids) (window_size : sf.Vector2u)
  : Boids :=
  tick_prefix dt boids window_size (length boids).

(** ** Vocabulary of the statements *)

(** Which arm of lines 66-102 runs.  [EarlyReturn] is the [return] of line
    67; [NoBranch] is falling through the last [else if]. *)
Inductive Branch : Type :=
  | EarlyReturn
  | SeparationBranch
  | AlignmentBranch
  | CohesionBranch
  | NoBranch.

Definition branch_taken (self : Boid) (boids : list Boid) : Branch :=
  if decide (length (kCohesionFlockmates self boids) = 1%nat) then EarlyReturn
  else if decide (1 < length (kSeparationFlockmates self boids))%nat
       then SeparationBranch
  else if decide (1 < length (kAlignmentFlockmates self boids))%nat
       then AlignmentBranch
  else if decide (1 < length (kCohesionFlockmates self boids))%nat
       then CohesionBranch
  else NoBranch.

(** Sum and linear (non-circular) arithmetic mean of a list of reals. *)
Definition Rsum (l : list R) : R := fold_right Rplus 0 l.

Definition mean (l : list R) : R := Rsum l / INR (length l).

(** The point a boid reaches before wrapping: its position plus the
    displacement of line 45. *)
Definition advanced (dt : R) (self : Boid) : sf.Vector2f :=
  sf.add (pos_ self)
    (sf.transformPoint (sf.rotate sf.Identity (rot_ self))
       0 (- (IZR (move_speed_ self) * dt))).

(** The world rectangle [0, width] x [0, height]. *)
Definition in_world (window_size : sf.Vector2u) (p : sf.Vector2f) : Prop :=
  0 <= sf.x p <= u2f (sf.x window_size) /\
  0 <= sf.y p <= u2f (sf.y window_size).

(** Every radius of the boid is positive: what both constructors establish
    and no member function changes. *)
Definition radii_positive (self : Boid) : Prop :=
  (0 < separation_distance self)%Z /\
  (0 < alignment_distance self)%Z /\
  (0 < cohesion_distance self)%Z.

(** ** Concrete inputs *)

(** [sf::Vector2f(x, y)] *)
Definition Vector2f_new (px py : R) : sf.Vector2f := sf.mkVector2 px py.

(** The reference window of [main], 800 x 600. *)
Definition window_800_600 : sf.Vector2u := sf.mkVector2 800%N 600%N.

(** Two boids five units apart. *)
Definition flock_pair : list Boid :=
  [ Boid_default; Boid_new (Vector2f_new 3 4) 0 sf.White ].

(** Two boids ten units apart: inside each other's separation radius. *)
Definition flock_crowded : list Boid :=
  [ Boid_new (Vector2f_new 110 100) 0 sf.White;
    Boid_new (Vector2f_new 100 100) 0 sf.White ].

(** Two boids a hundred units apart along X, and two about 113 units apart
    along a diagonal: inside the cohesion radius only. *)
Definition flock_loose : list Boid :=
  [ Boid_new (Vector2f_new 200 100) 0 sf.White;
    Boid_new (Vector2f_new 100 100) 0 sf.White ].

Definition flock_diagonal : list Boid :=
  [ Boid_new (Vector2f_new 180 80) 0 sf.White;
    Boid_new (Vector2f_new 100 0) 0 sf.White ].

(** The alignment test of the specification: three boids heading 10, 20
    and 30 degrees, pairwise 50 or about 70.7 units apart. *)
Definition flock_three : list Boid :=
  [ Boid_new (Vector2f_new 100 100) 10 sf.White;
    Boid_new (Vector2f_new 150 100) 20 sf.White;
    Boid_new (Vector2f_new 100 150) 30 sf.White ].

(** ** Further vocabulary and inputs *)

(** The members of a boid that [update] never assigns. *)
Definition parameters (self : Boid) : sf.Color * Z * Z * Z * Z * Z :=
  (col_ self, size_ self, move_speed_ self,
   kSeparationDistanceFactor self, kAlignmentDistanceFactor self,
   kCohesionDistanceFactor self).

(** The default member initialisers of lines 160-164. *)
Definition has_default_parameters (self : Boid) : Prop :=
  size_ self = 10%Z /\ move_speed_ self = 200%Z /\
  kSeparationDistanceFactor self = 3%Z /\
  kAlignmentDistanceFactor self = 9%Z /\
  kCohesionDistanceFactor self = 14%Z.

(** Two boids five hundred units apart. *)
Definition flock_far : list Boid :=
  [ Boid_default; Boid_new (Vector2f_new 300 400) 0 sf.White ].

(** ** [generate_random_boids] (main.cc, lines 231-249) *)

(** Conversion of an [unsigned] to [int], as where [window_size.x] becomes
    a bound of [std::uniform_int_distribution<>]: the value modulo 2^32,
    read as a two's complement number. *)
Definition u2i (n : N) : Z :=
  let z := (Z.of_N n mod 2 ^ 32)%Z in
  if (z <? 2 ^ 31)%Z then z else (z - 2 ^ 32)%Z.

(** Conversion of an [int] to [sf::Uint8], a colour channel: the value
    modulo 256. *)
Definition i2u8 (v : Z) : N := Z.to_N (v mod 256).

(** What a freshly generated boid looks like. *)
Definition freshly_generated (self : Boid) : Prop :=
  has_default_parameters self /\
  (exists heading : Z, (-180 <= heading <= 179)%Z /\ rot_ self = IZR heading) /\
  (exists px py : Z, pos_ self = Vector2f_new (IZR px) (IZR py)) /\
  (50 <= sf.r (col_ self) <= 255)%N /\
  (50 <= sf.g (col_ self) <= 255)%N /\
  (50 <= sf.b (col_ self) <= 255)%N /\
  sf.a (col_ self) = 255%N.

(** ** The events and frames of [main] (main.cc, lines 259-294) *)

(** Modelled from the spec: [sf::Keyboard::Key] (SFML), as far as the loop
    tells keys apart: R, the "reset" signal of section 6, or another. *)
Inductive Key : Type := KeyR | KeyOther.

(** Modelled from the spec: [sf::Event] (SFML), as far as the loop tells
    events apart: the "close", "resize" and key signals of section 6. *)
Inductive Event : Type :=
  | Closed
  | Resized (width height : N)
  | KeyPressed (code : Key)
  | OtherEvent.

(** What one pass of the outer loop receives from outside: the events
    [pollEvent] hands out, in order, and the time the clock shows. *)
Record Frame : Type := mkFrame { polled : list Event; kDt : R }.

Section Program.

(** Modelled from the spec: [std::mt19937] and
    [std::uniform_int_distribution<>] are the C++ library's, not under
    src/.  [G] is the state of the generator; a distribution with bounds
    [a] and [b], applied to the generator, gives a number and the state the
    generator is left in (section 6: uniformly random values in a range). *)
Variable G : Type.
Variable uniform_int_distribution : Z -> Z -> G -> Z * G.

(** The body of the loop of lines 241-246.  C++ leaves the order in which
    the arguments of a call are evaluated open; the model draws in the
    order written. *)
Definition random_boid (window_size : sf.Vector2u) (gen : G) : Boid * G :=
  let random_rotation := uniform_int_distribution (-180) 179 in
  let random_color_channel_value := uniform_int_distribution 50 255 in
  let random_pos_x := uniform_int_distribution 0 (u2i (sf.x window_size)) in
  let random_pos_y := uniform_int_distribution 0 (u2i (sf.y window_size)) in
  let '(px, gen) := random_pos_x gen in
  let '(py, gen) := random_pos_y gen in
  let '(rot, gen) := random_rotation gen in
  let '(red, gen) := random_color_channel_value gen in
  let '(green, gen) := random_color_channel_value gen in
  let '(blue, gen) := random_color_channel_value gen in
  (Boid_new (Vector2f_new (IZR px) (IZR py)) (IZR rot)
     (sf.mkColor (i2u8 red) (i2u8 green) (i2u8 blue) 255),
   gen).

(** The range-for loop over the slots of the array. *)
Fixpoint random_boids (count : nat) (window_size : sf.Vector2u) (gen : G)
  : list Boid * G :=
  match count with
  | O => ([], gen)
  | S count =>
      let '(boid, gen) := random_boid window_size gen in
      let '(rest, gen) := random_boids count window_size gen in
      (boid :: rest, gen)
  end.

Definition generate_random_boids (window_size : sf.Vector2u) (gen : G)
  : list Boid * G :=
  random_boids 40 window_size gen.

(** The variables of [main] that the loop reads and writes: of the window,
    whether it is open and the size it reports; the flock; the generator. *)
Record Main : Type := mkMain
  { window_isOpen : bool;
    window_getSize : sf.Vector2u;
    main_boids : list Boid;
    main_gen : G }.

(** Modelled from the spec: [sf::Window::close] (SFML, not under src/), the
    "close" signal of section 6: the window is open no longer. *)
Definition window_close (st : Main) : Main :=
  mkMain false (window_getSize st) (main_boids st) (main_gen st).

(** Modelled from the spec: a [Resized] event of SFML, the "resize" signal
    of section 6: from then on the window reports the size the event
    carries ([setView] of line 273 changes the view only). *)
Definition window_resized (width height : N) (st : Main) : Main :=
  mkMain (window_isOpen st) (sf.mkVector2 width height)
    (main_boids st) (main_gen st).

(** The body of the inner loop (lines 268-280): one polled event. *)
Definition handle_event (event : Event) (st : Main) : Main :=
  match event with
  | Closed => window_close st
  | Resized width height => window_resized width height st
  | KeyPressed KeyR =>
      let '(boids, gen) :=
        generate_random_boids (window_getSize st) (main_gen st) in
      mkMain (window_isOpen st) (window_getSize st) boids gen
  | KeyPressed KeyOther | OtherEvent => st
  end.

(** One pass of the outer loop (lines 266-292): the events, then the tick.
    Clearing, drawing and displaying leave these variables alone. *)
Definition frame (f : Frame) (st : Main) : Main :=
  let st := fold_left (fun st event => handle_event event st) (polled f) st in
  mkMain (window_isOpen st) (window_getSize st)
    (update_boids (kDt f) (main_boids st) (window_getSize st))
    (main_gen st).

(** [while (window.isOpen())], run on the frames that are supplied. *)
Fixpoint main_loop (frames : list Frame) (st : Main) : Main :=
  match frames with
  | [] => st
  | f :: rest =>
      if window_isOpen st then main_loop rest (frame f st) else st
  end.

(** Lines 260-263: the window of 800 x 600 and the first flock. *)
Definition main_start (gen : G) : Main :=
  let '(boids, gen) := generate_random_boids window_800_600 gen in
  mkMain true window_800_600 boids gen.

Definition main (frames : list Frame) (gen : G) : Main :=
  main_loop frames (main_start gen).

(** Every boid of the flock is inside the window as it is sized now. *)
Definition flock_in_window (st : Main) : Prop :=
  Forall (fun self => in_world (window_getSize st) (pos_ self)) (main_boids st).

(** The flock is a full array of boids with the default parameters. *)
Definition flock_ok (st : Main) : Prop :=
  length (main_boids st) = 40%nat /\
  Forall has_default_parameters (main_boids st).

End Program.

Arguments random_boid {G} _ _ _.
Arguments random_boids {G} _ _ _ _.
Arguments generate_random_boids {G} _ _ _.
Arguments window_isOpen {G} _.
Arguments window_getSize {G} _.
Arguments main_boids {G} _.
Arguments main_gen {G} _.
Arguments mkMain {G} _ _ _ _.
Arguments window_close {G} _.
Arguments window_resized {G} _ _ _.
Arguments handle_event {G} _ _ _.
Arguments frame {G} _ _ _.
Arguments main_loop {G} _ _ _.
Arguments main_start {G} _ _.
Arguments main {G} _ _ _.
Arguments flock_in_window {G} _.
Arguments flock_ok {G} _.

(** A generator for concrete runs: a linear congruential state, reduced
    into the range asked for. *)
Definition lcg_distribution (a b : Z) (gen : Z) : Z * Z :=
  ((a + gen mod (b - a + 1))%Z, ((gen * 1103515245 + 12345) mod 2 ^ 31)%Z).

(** ** Single precision: the numbers the program stores

    The C++ [float] is IEEE 754 binary32.  [Binary32] is the arithmetic
    part of [main.cc] once more, with every operation rounded as the
    machine rounds it (to nearest, ties to even, 24 bits of precision), on
    the [spec_float] of the standard library.  It settles what values the
    code stores; the definitions on [R] above are its idealisation. *)

Module Binary32.

Definition prec : Z := 24%Z.
Definition emax : Z := 128%Z.

Definition float : Type := spec_float.

(** [0.0f], and the coordinates of [sf::Vector2f()]. *)
Definition zero : float := S754_zero false.

Definition add (a b : float) : float := SFadd prec emax a b.
Definition sub (a b : float) : float := SFsub prec emax a b.
Definition mul (a b : float) : float := SFmul prec emax a b.
Definition div (a b : float) : float := SFdiv prec emax a b.
Definition sqrt (a : float) : float := SFsqrt prec emax a.
Definition neg (a : float) : float := SFopp a.
Definition ltb (a b : float) : bool := SFltb a b.
Definition gtb (a b : float) : bool := SFltb b a.
Definition eqb (a b : float) : bool := SFeqb a b.

(** The implicit conversions of [int], [unsigned] and [std::size_t] to
    [float]: the nearest binary32 number. *)
Definition of_Z (z : Z) : float := binary_normalize prec emax z 0 false.
Definition of_N (n : N) : float := of_Z (Z.of_N n).
Definition of_nat (n : nat) : float := of_Z (Z.of_nat n).

(** A number, as opposed to an infinity or a NaN, in the format. *)
Definition is_finite (a : float) : bool :=
  match a with
  | S754_zero _ => true
  | S754_finite _ m e => bounded prec emax m e
  | _ => false
  end.

(** [kPi<float>]: the literal 3.1415926535897932385 rounded to binary32,
    13176795 * 2^-22 = 3.14159274. *)
Definition kPi : float := S754_finite false 13176795 (-22).

Definition Vector2f : Type := sf.Vector2 float.

(** [sf::Vector2f(px, py)] on integer literals. *)
Definition Vector2f_new (px py : Z) : Vector2f :=
  sf.mkVector2 (of_Z px) (of_Z py).

(** Modelled from the spec: [operator-] and [operator+=] of
    [sf::Vector2f] (SFML), coordinate-wise. *)
Definition vsub (a b : Vector2f) : Vector2f :=
  sf.mkVector2 (sub (sf.x a) (sf.x b)) (sub (sf.y a) (sf.y b)).

Definition vadd (a b : Vector2f) : Vector2f :=
  sf.mkVector2 (add (sf.x a) (sf.x b)) (add (sf.y a) (sf.y b)).

Definition finite_position (p : Vector2f) : bool :=
  is_finite (sf.x p) && is_finite (sf.y p).

(** A finite position with positive coordinates that are not beyond the
    window: where the four wrap tests of lines 46-60 all fail. *)
Definition unwrapped (window_size : sf.Vector2u) (p : Vector2f) : bool :=
  finite_position p &&
  ltb zero (sf.x p) && negb (gtb (sf.x p) (of_N (sf.x window_size))) &&
  ltb zero (sf.y p) && negb (gtb (sf.y p) (of_N (sf.y window_size))).

Definition distance_2d (a b : Vector2f) : float :=
  let diff := vsub a b in
  sqrt (add (mul (sf.x diff) (sf.x diff)) (mul (sf.y diff) (sf.y diff))).

Definition rad2deg (rad : float) : float := div (mul rad (of_Z 180)) kPi.

Record Boid : Type := mkBoid
  { pos_ : Vector2f;
    rot_ : float;
    col_ : sf.Color;
    size_ : Z;
    move_speed_ : Z;
    kSeparationDistanceFactor : Z;
    kAlignmentDistanceFactor : Z;
    kCohesionDistanceFactor : Z }.

Definition Boid_new (pos : Vector2f) (rot : float) (col : sf.Color) : Boid :=
  mkBoid pos rot col 10 200 3 9 14.

Definition set_pos (self : Boid) (p : Vector2f) : Boid :=
  mkBoid p (rot_ self) (col_ self) (size_ self) (move_speed_ self)
    (kSeparationDistanceFactor self) (kAlignmentDistanceFactor self)
    (kCohesionDistanceFactor self).

Definition set_rot (self : Boid) (rot : float) : Boid :=
  mkBoid (pos_ self) rot (col_ self) (size_ self) (move_speed_ self)
    (kSeparationDistanceFactor self) (kAlignmentDistanceFactor self)
    (kCohesionDistanceFactor self).

Definition cohesion_distance (self : Boid) : Z :=
  (size_ self * kCohesionDistanceFactor self)%Z.
Definition alignment_distance (self : Boid) : Z :=
  (size_ self * kAlignmentDistanceFactor self)%Z.
Definition separation_distance (self : Boid) : Z :=
  (size_ self * kSeparationDistanceFactor self)%Z.

(** The default member initialisers of lines 160-164, which no member
    function changes. *)
Definition has_default_parameters (self : Boid) : Prop :=
  size_ self = 10%Z /\ move_speed_ self = 200%Z /\
  kSeparationDistanceFactor self = 3%Z /\
  kAlignmentDistanceFactor self = 9%Z /\
  kCohesionDistanceFactor self = 14%Z.

Definition get_flockmates (self : Boid) (boids : list Boid) (distance : Z)
  : list Boid :=
  List.filter
    (fun local_flockmate =>
       ltb (distance_2d (pos_ self) (pos_ local_flockmate)) (of_Z distance))
    boids.

Definition center_of_mass (boids : list Boid) : Vector2f :=
  fold_left
    (fun result local_flockmate =>
       sf.mkVector2
         (add (sf.x result)
              (div (sf.x (pos_ local_flockmate)) (of_nat (length boids))))
         (add (sf.y result)
              (div (sf.y (pos_ local_flockmate)) (of_nat (length boids)))))
    boids (sf.mkVector2 zero zero).

Definition kCohesionFlockmates (self : Boid) (boids : list Boid) : list Boid :=
  get_flockmates self boids (cohesion_distance self).

Definition kAlignmentFlockmates (self : Boid) (boids : list Boid) : list Boid :=
  get_flockmates self (kCohesionFlockmates self boids) (alignment_distance self).

Definition kSeparationFlockmates (self : Boid) (boids : list Boid) : list Boid :=
  get_flockmates self (kAlignmentFlockmates self boids) (separation_distance self).

Definition kAverageRotation (flockmates : list Boid) : float :=
  fold_left
    (fun result boid =>
       add result (div (rot_ boid) (of_nat (length flockmates))))
    flockmates zero.

Definition branch_taken (self : Boid) (boids : list Boid) : Branch :=
  if Nat.eqb (length (kCohesionFlockmates self boids)) 1 then EarlyReturn
  else if Nat.ltb 1 (length (kSeparationFlockmates self boids))
       then SeparationBranch
  else if Nat.ltb 1 (length (kAlignmentFlockmates self boids))
       then AlignmentBranch
  else if Nat.ltb 1 (length (kCohesionFlockmates self boids))
       then CohesionBranch
  else NoBranch.

(** What the amended statements say in words: the sum, from [0.0f] and in
    list order, of each value divided by [count], every division and every
    addition rounded. *)
Definition running_sum (values : list float) (count : nat) : float :=
  fold_left (fun result v => add result (div v (of_nat count))) values zero.

(** Inside the alignment radius of a boid built by the constructor (90)
    and not inside its separation radius (30). *)
Definition alignment_only (a b : Vector2f) : bool :=
  negb (ltb (distance_2d a b) (of_Z 30)) && ltb (distance_2d a b) (of_Z 90).

Section Update.

(** [transformPoint angle px py] is
    [sf::Transform().rotate(angle).transformPoint(px, py)] and [atan2] is
    [std::atan2] on [float]: SFML and the C library, neither under src/.
    Their results are whatever the libraries return; the statements below
    hold for every such pair of functions. *)
Variable transformPoint : float -> float -> float -> Vector2f.
Variable atan2 : float -> float -> float.

Definition update_position (dt : float) (self : Boid)
    (window_size : sf.Vector2u) : Boid :=
  let kDeltaSpeed := mul (of_Z (move_speed_ self)) dt in
  let p := vadd (pos_ self)
             (transformPoint (rot_ self) (of_Z 0) (neg kDeltaSpeed)) in
  let p := if ltb (sf.x p) (of_Z 0)
           then sf.set_x p (of_N (sf.x window_size)) else p in
  let p := if gtb (sf.x p) (of_N (sf.x window_size))
           then sf.set_x p (of_Z 0) else p in
  let p := if ltb (sf.y p) (of_Z 0)
           then sf.set_y p (of_N (sf.y window_size)) else p in
  let p := if gtb (sf.y p) (of_N (sf.y window_size))
           then sf.set_y p (of_Z 0) else p in
  set_pos self p.

Definition kBoidToCenterOfMassRotation (self : Boid) (center : Vector2f)
  : float :=
  rad2deg (atan2 (sub (sf.y center) (sf.y (pos_ self)))
                 (sub (sf.x center) (sf.x (pos_ self)))).

Definition update_heading (self : Boid) (boids : list Boid) : Boid :=
  let cohesion := kCohesionFlockmates self boids in
  if Nat.eqb (length cohesion) 1 then self
  else
    let kCohesionFlockmateCenterOfMass := center_of_mass cohesion in
    let alignment := kAlignmentFlockmates self boids in
    let kAlignmentFlockmateCenterOfMass := center_of_mass alignment in
    let separation := kSeparationFlockmates self boids in
    let kSeparationFlockmateCenterOfMass := center_of_mass separation in
    if Nat.ltb 1 (length separation) then
      set_rot self
        (add (add (kBoidToCenterOfMassRotation self
                     kSeparationFlockmateCenterOfMass)
                  (of_Z 90))
             (of_Z 180))
    else if Nat.ltb 1 (length alignment) then
      set_rot self (kAverageRotation alignment)
    else if Nat.ltb 1 (length cohesion) then
      set_rot self
        (add (kBoidToCenterOfMassRotation self kCohesionFlockmateCenterOfMass)
             (of_Z 90))
    else self.

Definition update (dt : float) (boids : list Boid) (this : nat)
    (window_size : sf.Vector2u) : list Boid :=
  match boids !! this with
  | Some self =>
      let source := <[this := update_position dt self window_size]> boids in
      <[this := update_heading (update_position dt self window_size) source]>
        source
  | None => boids
  end.

Definition update_boids (dt : float) (boids : list Boid)
    (window_size : sf.Vector2u) : list Boid :=
  fold_left (fun st this => update dt st this window_size)
    (seq 0 (length boids)) boids.

End Update.

(** ** Concrete inputs *)

(** Six boids on the line y = 7, all heading 7 degrees; from the first,
    the others are 30, 60, 30, 60 and 80 units away. *)
Definition flock_sevens : list Boid :=
  [ Boid_new (Vector2f_new 100 7) (of_Z 7) sf.White;
    Boid_new (Vector2f_new 130 7) (of_Z 7) sf.White;
    Boid_new (Vector2f_new 160 7) (of_Z 7) sf.White;
    Boid_new (Vector2f_new 70 7) (of_Z 7) sf.White;
    Boid_new (Vector2f_new 40 7) (of_Z 7) sf.White;
    Boid_new (Vector2f_new 180 7) (of_Z 7) sf.White ].

(** Two boids fifty units apart, heading 179 and -179 degrees. *)
Definition flock_opposed : list Boid :=
  [ Boid_new (Vector2f_new 100 100) (of_Z 179) sf.White;
    Boid_new (Vector2f_new 150 100) (of_Z (-179)) sf.White ].

(** The alignment test of the specification: three boids heading 10, 20
    and 30 degrees, pairwise 50 or about 70.7 units apart. *)
Definition flock_three : list Boid :=
  [ Boid_new (Vector2f_new 100 100) (of_Z 10) sf.White;
    Boid_new (Vector2f_new 150 100) (of_Z 20) sf.White;
    Boid_new (Vector2f_new 100 150) (of_Z 30) sf.White ].

(** Modelled from the spec: the value of
    [sf::Transform().rotate(angle).transformPoint(0, -0.0f)] (SFML), the
    displacement of a step with no time elapsed: the origin, for every
    finite angle.  It stands for the transform in concrete runs with
    [dt = 0], which apply it to that point only. *)
Definition rotated_origin (angle px py : float) : Vector2f :=
  sf.mkVector2 zero zero.

(** At every finite angle the transform takes the origin to the origin:
    with no time elapsed the displacement is zero. *)
Definition is_zero (a : float) : Prop :=
  match a with S754_zero _ => True | _ => False end.

Definition fixes_origin (transformPoint : float -> float -> float -> Vector2f)
  : Prop :=
  forall angle : float,
    is_finite angle = true ->
    is_zero (sf.x (transformPoint angle (of_Z 0) (neg zero))) /\
    is_zero (sf.y (transformPoint angle (of_Z 0) (neg zero))).

End Binary32.

(** ** Proof automation *)

(** Case analysis on a comparison whose operands hold no other one. *)
Ltac innermost_decide :=
  match goal with
  | |- context [decide ?P] =>
      lazymatch P with
      | context [decide _] => fail
      | _ => destruct (decide P);
             cbn [sf.x sf.y sf.set_x sf.set_y set_pos pos_]
      end
  end.

(** The radii of a boid as numerals. *)
Ltac radius_value :=
  match goal with
  | |- context [cohesion_distance ?b] =>
      let v := eval lazy in (cohesion_distance b) in
      change (cohesion_distance b) with v
  | |- context [alignment_distance ?b] =>
      let v := eval lazy in (alignment_distance b) in
      change (alignment_distance b) with v
  | |- context [separation_distance ?b] =>
      let v := eval lazy in (separation_distance b) in
      change (separation_distance b) with v
  end.

Ltac show_positions :=
  unfold Vector2f_new, Boid_new, Boid_default;
  cbn [pos_ rot_ set_pos set_rot sf.x sf.y].

(** Comparisons of list lengths. *)
Ltac decide_lengths :=
  cbn [length];
  repeat match goal with
    | |- context [decide ?P] =>
        first [ rewrite (decide_True (P := P)) by lia
              | rewrite (decide_False (P := P)) by lia ]
    end.

(** * Properties *)

(** ** Geometry *)

Lemma distance_2d_self (p : sf.Vector2f) : distance_2d p p = 0.
Proof.
  unfold distance_2d, sf.sub; simpl.
  replace ((sf.x p - sf.x p) * (sf.x p - sf.x p) +
           (sf.y p - sf.y p) * (sf.y p - sf.y p)) with 0 by ring.
  apply sqrt_0.
Qed.

Lemma distance_2d_sym (a b : sf.Vector2f) : distance_2d a b = distance_2d b a.
Proof. unfold distance_2d, sf.sub; simpl. f_equal. ring. Qed.

Lemma distance_2d_nonneg (a b : sf.Vector2f) : 0 <= distance_2d a b.
Proof. unfold distance_2d. apply sqrt_pos. Qed.

(** Comparing a distance with a positive bound is comparing the squares. *)
Lemma distance_2d_lt (a b : sf.Vector2f) (d : R) :
  0 < d ->
  distance_2d a b < d <->
  (sf.x a - sf.x b) * (sf.x a - sf.x b) +
  (sf.y a - sf.y b) * (sf.y a - sf.y b) < d * d.
Proof.
  intros Hd. unfold distance_2d, sf.sub; simpl.
  set (s := (sf.x a - sf.x b) * (sf.x a - sf.x b) +
            (sf.y a - sf.y b) * (sf.y a - sf.y b)).
  assert (Hs : 0 <= s).
  { pose proof (Rle_0_sqr (sf.x a - sf.x b)) as Hx.
    pose proof (Rle_0_sqr (sf.y a - sf.y b)) as Hy.
    unfold Rsqr in Hx, Hy. unfold s. lra. }
  assert (Hdd : 0 <= d * d) by (apply Rmult_le_pos; lra).
  rewrite <- (sqrt_square d) at 1 by lra.
  split; intros H.
  - apply sqrt_lt_0_alt in H. exact H.
  - apply sqrt_lt_1; assumption.
Qed.

(** ** Flockmates *)

Lemma elem_of_get_flockmates (self : Boid) (boids : list Boid) (d : Z) (m : Boid) :
  m ∈ get_flockmates self boids d <->
  distance_2d (pos_ self) (pos_ m) < IZR d /\ m ∈ boids.
Proof. unfold get_flockmates. rewrite list_elem_of_filter. reflexivity. Qed.

Lemma get_flockmates_sublist (self : Boid) (boids : list Boid) (d : Z) :
  get_flockmates self boids d `sublist_of` boids.
Proof. unfold get_flockmates. apply sublist_filter. Qed.

Lemma self_in_get_flockmates (self : Boid) (boids : list Boid) (d : Z) :
  self ∈ boids -> (0 < d)%Z -> self ∈ get_flockmates self boids d.
Proof.
  intros Hin Hd. apply elem_of_get_flockmates. split; [|exact Hin].
  rewrite distance_2d_self. apply IZR_lt in Hd. exact Hd.
Qed.

Lemma length_pos_of_elem (l : list Boid) (m : Boid) : m ∈ l -> (1 <= length l)%nat.
Proof. destruct l; [intros H; inversion H | simpl; lia]. Qed.

Lemma self_in_every_tier (self : Boid) (boids : list Boid) :
  self ∈ boids ->
  radii_positive self ->
  self ∈ kSeparationFlockmates self boids /\
  self ∈ kAlignmentFlockmates self boids /\
  self ∈ kCohesionFlockmates self boids.
Proof.
  intros Hin (Hsep & Hali & Hcoh).
  assert (Hc : self ∈ kCohesionFlockmates self boids)
    by (apply self_in_get_flockmates; assumption).
  assert (Ha : self ∈ kAlignmentFlockmates self boids)
    by (apply self_in_get_flockmates; assumption).
  assert (Hs : self ∈ kSeparationFlockmates self boids)
    by (apply self_in_get_flockmates; assumption).
  auto.
Qed.

(** C7.  For a boid that is a member of the candidate population and whose
    radii are positive: the separation tier is a sub-list of the alignment
    tier, which is a sub-list of the cohesion tier, which is a sub-list of
    the population; each tier consists of the members of the previous one
    at a distance strictly below its radius; the boid itself is in every
    tier, so every tier has at least one member. *)
Theorem tiers_nested_and_contain_self (self : Boid) (boids : list Boid) :
  self ∈ boids ->
  radii_positive self ->
  (kSeparationFlockmates self boids `sublist_of` kAlignmentFlockmates self boids /\
   kAlignmentFlockmates self boids `sublist_of` kCohesionFlockmates self boids /\
   kCohesionFlockmates self boids `sublist_of` boids) /\
  (forall m, m ∈ kCohesionFlockmates self boids <->
             distance_2d (pos_ self) (pos_ m) < IZR (cohesion_distance self) /\
             m ∈ boids) /\
  (forall m, m ∈ kAlignmentFlockmates self boids <->
             distance_2d (pos_ self) (pos_ m) < IZR (alignment_distance self) /\
             m ∈ kCohesionFlockmates self boids) /\
  (forall m, m ∈ kSeparationFlockmates self boids <->
             distance_2d (pos_ self) (pos_ m) < IZR (separation_distance self) /\
             m ∈ kAlignmentFlockmates self boids) /\
  (self ∈ kSeparationFlockmates self boids /\
   self ∈ kAlignmentFlockmates self boids /\
   self ∈ kCohesionFlockmates self boids) /\
  (1 <= length (kSeparationFlockmates self boids) /\
   1 <= length (kAlignmentFlockmates self boids) /\
   1 <= length (kCohesionFlockmates self boids))%nat.
Proof.
  intros Hin Hradii.
  destruct (self_in_every_tier self boids Hin Hradii) as (Hs & Ha & Hc).
  split; [|split; [|split; [|split; [|split]]]].
  - repeat split; apply get_flockmates_sublist.
  - intros m. apply elem_of_get_flockmates.
  - intros m. apply elem_of_get_flockmates.
  - intros m. apply elem_of_get_flockmates.
  - auto.
  - repeat split; eapply length_pos_of_elem; eassumption.
Qed.

(** The default boid in [flock_pair]: it is in its own separation tier. *)
Lemma tiers_nested_and_contain_self_witness :
  Boid_default ∈ flock_pair /\
  radii_positive Boid_default /\
  (1 <= length (kSeparationFlockmates Boid_default flock_pair))%nat.
Proof.
  assert (Hin : Boid_default ∈ flock_pair) by apply list_elem_of_here.
  assert (Hr : radii_positive Boid_default)
    by (repeat split; reflexivity).
  split; [exact Hin | split; [exact Hr |]].
  apply (tiers_nested_and_contain_self _ _ Hin Hr).
Defined.

(** ** One call of [update] on the shared array *)

Section OneUpdate.
Variables (dt : R) (window_size : sf.Vector2u).

Lemma neighbor_source_length (boids : list Boid) (this : nat) :
  length (neighbor_source dt boids this window_size) = length boids.
Proof.
  unfold neighbor_source. destruct (boids !! this); [|reflexivity].
  apply length_insert.
Qed.

Lemma neighbor_source_lookup_ne (boids : list Boid) (this i : nat) :
  i <> this ->
  neighbor_source dt boids this window_size !! i = boids !! i.
Proof.
  intros Hne. unfold neighbor_source. destruct (boids !! this); [|reflexivity].
  apply list_lookup_insert_ne. congruence.
Qed.

Lemma neighbor_source_lookup_this (boids : list Boid) (this : nat) (self : Boid) :
  boids !! this = Some self ->
  neighbor_source dt boids this window_size !! this =
  Some (update_position dt self window_size).
Proof.
  intros Hself. unfold neighbor_source. rewrite Hself.
  apply list_lookup_insert_eq. eapply lookup_lt_Some. exact Hself.
Qed.

Lemma update_unfold (boids : list Boid) (this : nat) (self : Boid) :
  boids !! this = Some self ->
  update dt boids this window_size =
  <[this := update_heading (update_position dt self window_size)
              (neighbor_source dt boids this window_size)]>
    (neighbor_source dt boids this window_size).
Proof.
  intros Hself. unfold update.
  rewrite (neighbor_source_lookup_this _ _ _ Hself). reflexivity.
Qed.

Lemma update_out_of_range (boids : list Boid) (this : nat) :
  boids !! this = None -> update dt boids this window_size = boids.
Proof.
  intros Hnone. unfold update, neighbor_source. rewrite Hnone, Hnone.
  reflexivity.
Qed.

Lemma update_length (boids : list Boid) (this : nat) :
  length (update dt boids this window_size) = length boids.
Proof.
  destruct (boids !! this) as [self|] eqn:Hself.
  - rewrite (update_unfold _ _ _ Hself), length_insert.
    apply neighbor_source_length.
  - rewrite update_out_of_range by assumption. reflexivity.
Qed.

Lemma update_lookup_ne (boids : list Boid) (this i : nat) :
  i <> this -> update dt boids this window_size !! i = boids !! i.
Proof.
  intros Hne. destruct (boids !! this) as [self|] eqn:Hself.
  - rewrite (update_unfold _ _ _ Hself).
    rewrite list_lookup_insert_ne by congruence.
    apply neighbor_source_lookup_ne. exact Hne.
  - rewrite update_out_of_range by assumption. reflexivity.
Qed.

Lemma update_lookup_this (boids : list Boid) (this : nat) (self : Boid) :
  boids !! this = Some self ->
  update dt boids this window_size !! this =
  Some (update_heading (update_position dt self window_size)
          (neighbor_source dt boids this window_size)).
Proof.
  intros Hself. rewrite (update_unfold _ _ _ Hself).
  apply list_lookup_insert_eq. rewrite neighbor_source_length.
  eapply lookup_lt_Some. exact Hself.
Qed.

(** ** The loop of [update_boids] *)

Lemma tick_prefix_S (boids : list Boid) (k : nat) :
  tick_prefix dt boids window_size (S k) =
  update dt (tick_prefix dt boids window_size k) k window_size.
Proof.
  unfold tick_prefix. rewrite seq_S, fold_left_app. reflexivity.
Qed.

Lemma tick_prefix_length (boids : list Boid) (k : nat) :
  length (tick_prefix dt boids window_size k) = length boids.
Proof.
  induction k as [|k IH]; [reflexivity|].
  rewrite tick_prefix_S, update_length. exact IH.
Qed.

(** A slot the loop has not reached yet still holds its old content. *)
Lemma tick_prefix_lookup_pending (boids : list Boid) (k i : nat) :
  (k <= i)%nat -> tick_prefix dt boids window_size k !! i = boids !! i.
Proof.
  induction k as [|k IH]; intros Hle; [reflexivity|].
  rewrite tick_prefix_S, update_lookup_ne by lia. apply IH. lia.
Qed.

(** A slot the loop has passed is not written again. *)
Lemma tick_prefix_lookup_done (boids : list Boid) (k k' i : nat) :
  (i < k)%nat -> (k <= k')%nat ->
  tick_prefix dt boids window_size k' !! i =
  tick_prefix dt boids window_size k !! i.
Proof.
  intros Hik Hkk'. induction Hkk' as [|k' Hkk' IH]; [reflexivity|].
  rewrite tick_prefix_S, update_lookup_ne by lia. exact IH.
Qed.

End OneUpdate.

(** C2.  One tick is the sequence of [update] calls in index order on one
    shared array.  For indices [i < j] of the flock: the call for [j] runs on
    the array left by the [j] earlier calls and collects its tiers from
    that array (with its own slot moved), in which slot [i] already holds
    the boid that the tick ends with; the call for [i] runs on the array in
    which slot [j] still holds the boid of the previous tick. *)
Theorem tick_sequential_in_place
    (dt : R) (boids : list Boid) (window_size : sf.Vector2u) (i j : nat) :
  (i < j < length boids)%nat ->
  let at_i := tick_prefix dt boids window_size i in
  let at_j := tick_prefix dt boids window_size j in
  tick_prefix dt boids window_size (S i) = update dt at_i i window_size /\
  tick_prefix dt boids window_size (S j) = update dt at_j j window_size /\
  (exists self_j,
      at_j !! j = Some self_j /\
      update dt at_j j window_size =
      <[j := update_heading (update_position dt self_j window_size)
               (neighbor_source dt at_j j window_size)]>
        (neighbor_source dt at_j j window_size)) /\
  (exists self_i,
      at_i !! i = Some self_i /\
      update dt at_i i window_size =
      <[i := update_heading (update_position dt self_i window_size)
               (neighbor_source dt at_i i window_size)]>
        (neighbor_source dt at_i i window_size)) /\
  neighbor_source dt at_j j window_size !! i =
    update_boids dt boids window_size !! i /\
  neighbor_source dt at_i i window_size !! j = boids !! j /\
  update_boids dt boids window_size !! i = update dt at_i i window_size !! i.
Proof.
  intros [Hij Hj] at_i at_j. subst at_i at_j.
  assert (Hslot : forall k, (k < length boids)%nat ->
            exists self, tick_prefix dt boids window_size k !! k = Some self).
  { intros k Hk. apply lookup_lt_is_Some_2.
    rewrite tick_prefix_length. exact Hk. }
  split; [apply tick_prefix_S|].
  split; [apply tick_prefix_S|].
  split.
  { destruct (Hslot j Hj) as [self Hself]. exists self.
    split; [exact Hself | apply update_unfold; exact Hself]. }
  split.
  { destruct (Hslot i) as [self Hself]; [lia|]. exists self.
    split; [exact Hself | apply update_unfold; exact Hself]. }
  split.
  { rewrite neighbor_source_lookup_ne by lia. unfold update_boids.
    symmetry. apply tick_prefix_lookup_done; lia. }
  split.
  { rewrite neighbor_source_lookup_ne by lia.
    apply tick_prefix_lookup_pending. lia. }
  unfold update_boids. rewrite <- tick_prefix_S.
  apply tick_prefix_lookup_done; lia.
Qed.

(** On [flock_pair]: the second call reads the first slot as the tick
    leaves it. *)
Lemma tick_sequential_in_place_witness :
  (0 < 1 < length flock_pair)%nat /\
  neighbor_source 0 (tick_prefix 0 flock_pair window_800_600 1) 1 window_800_600
    !! 0%nat
  = update_boids 0 flock_pair window_800_600 !! 0%nat.
Proof.
  assert (H : (0 < 1 < length flock_pair)%nat) by (simpl; lia).
  split; [exact H|].
  apply (tick_sequential_in_place 0 flock_pair window_800_600 0 1 H).
Defined.

(** ** The position phase *)

Lemma u2f_nonneg (n : N) : 0 <= u2f n.
Proof. unfold u2f. apply IZR_le. lia. Qed.

(** Heading 0 points along negative Y; a positive heading turns clockwise. *)
Lemma advanced_components (dt : R) (self : Boid) :
  sf.x (advanced dt self) =
    sf.x (pos_ self)
    + sin (rot_ self * PI / 180) * (IZR (move_speed_ self) * dt) /\
  sf.y (advanced dt self) =
    sf.y (pos_ self)
    - cos (rot_ self * PI / 180) * (IZR (move_speed_ self) * dt).
Proof. unfold advanced; simpl. split; ring. Qed.

Lemma advanced_dt_0 (self : Boid) : advanced 0 self = pos_ self.
Proof.
  destruct (advanced_components 0 self) as [Hx Hy].
  destruct (advanced 0 self) as [ax ay], (pos_ self) as [px py].
  simpl in Hx, Hy. f_equal; [rewrite Hx | rewrite Hy]; ring.
Qed.

Lemma update_position_x (dt : R) (self : Boid) (window_size : sf.Vector2u) :
  sf.x (pos_ (update_position dt self window_size)) =
  if decide (sf.x (advanced dt self) < 0) then u2f (sf.x window_size)
  else if decide (sf.x (advanced dt self) > u2f (sf.x window_size)) then 0
  else sf.x (advanced dt self).
Proof.
  pose proof (u2f_nonneg (sf.x window_size)) as HW.
  unfold update_position. fold (advanced dt self).
  cbv zeta. generalize (advanced dt self) as p. intros p.
  repeat innermost_decide; try reflexivity; try lra.
Qed.

Lemma update_position_y (dt : R) (self : Boid) (window_size : sf.Vector2u) :
  sf.y (pos_ (update_position dt self window_size)) =
  if decide (sf.y (advanced dt self) < 0) then u2f (sf.y window_size)
  else if decide (sf.y (advanced dt self) > u2f (sf.y window_size)) then 0
  else sf.y (advanced dt self).
Proof.
  pose proof (u2f_nonneg (sf.y window_size)) as HW.
  unfold update_position. fold (advanced dt self).
  cbv zeta. generalize (advanced dt self) as p. intros p.
  repeat innermost_decide; try reflexivity; try lra.
Qed.

Lemma update_position_rot (dt : R) (self : Boid) (window_size : sf.Vector2u) :
  rot_ (update_position dt self window_size) = rot_ self.
Proof. reflexivity. Qed.

(** A boid already inside the window and not displaced stays where it is. *)
Lemma update_position_pos_fixed (self : Boid) (window_size : sf.Vector2u) :
  in_world window_size (pos_ self) ->
  pos_ (update_position 0 self window_size) = pos_ self.
Proof.
  intros [[Hx0 Hx1] [Hy0 Hy1]].
  pose proof (update_position_x 0 self window_size) as Hx.
  pose proof (update_position_y 0 self window_size) as Hy.
  rewrite advanced_dt_0 in Hx, Hy.
  destruct (decide (sf.x (pos_ self) < 0)); [lra|].
  destruct (decide (sf.x (pos_ self) > u2f (sf.x window_size))); [lra|].
  destruct (decide (sf.y (pos_ self) < 0)); [lra|].
  destruct (decide (sf.y (pos_ self) > u2f (sf.y window_size))); [lra|].
  destruct (pos_ (update_position 0 self window_size)) as [qx qy].
  destruct (pos_ self) as [px py]. simpl in *. congruence.
Qed.

(** C6.  With [p] the position plus the displacement and [q] the position
    the phase leaves: on each axis independently, a coordinate of [p] below
    0 becomes the window bound, one above the bound becomes 0, and one in
    [0, bound] (the bound included) is kept.  With width 800 and no
    displacement, x = -1 becomes 800, x = 801 becomes 0, x = 800 stays. *)
Theorem position_wrap (dt : R) (self : Boid) (window_size : sf.Vector2u) :
  let p := advanced dt self in
  let q := pos_ (update_position dt self window_size) in
  ((sf.x p < 0 -> sf.x q = u2f (sf.x window_size)) /\
   (sf.x p > u2f (sf.x window_size) -> sf.x q = 0) /\
   (0 <= sf.x p <= u2f (sf.x window_size) -> sf.x q = sf.x p)) /\
  ((sf.y p < 0 -> sf.y q = u2f (sf.y window_size)) /\
   (sf.y p > u2f (sf.y window_size) -> sf.y q = 0) /\
   (0 <= sf.y p <= u2f (sf.y window_size) -> sf.y q = sf.y p)) /\
  (forall (py rot : R) (col : sf.Color),
      sf.x (pos_ (update_position 0 (Boid_new (Vector2f_new (-1) py) rot col)
                    window_800_600)) = 800 /\
      sf.x (pos_ (update_position 0 (Boid_new (Vector2f_new 801 py) rot col)
                    window_800_600)) = 0 /\
      sf.x (pos_ (update_position 0 (Boid_new (Vector2f_new 800 py) rot col)
                    window_800_600)) = 800).
Proof.
  intros p q. subst p q.
  pose proof (u2f_nonneg (sf.x window_size)) as HW.
  pose proof (u2f_nonneg (sf.y window_size)) as HH.
  split; [|split].
  - rewrite update_position_x.
    repeat split; intros H; repeat innermost_decide; try reflexivity; lra.
  - rewrite update_position_y.
    repeat split; intros H; repeat innermost_decide; try reflexivity; lra.
  - intros py rot col.
    rewrite !update_position_x, !advanced_dt_0. simpl.
    unfold u2f; simpl.
    repeat split; repeat innermost_decide; try reflexivity; lra.
Qed.

Lemma update_heading_pos (self : Boid) (boids : list Boid) :
  pos_ (update_heading self boids) = pos_ self.
Proof.
  unfold update_heading. cbv zeta. repeat case_decide; reflexivity.
Qed.

Lemma update_position_in_world
    (dt : R) (self : Boid) (window_size : sf.Vector2u) :
  in_world window_size (pos_ (update_position dt self window_size)).
Proof.
  unfold in_world.
  pose proof (u2f_nonneg (sf.x window_size)) as HW.
  pose proof (u2f_nonneg (sf.y window_size)) as HH.
  rewrite update_position_x, update_position_y.
  repeat innermost_decide; lra.
Qed.

(** C10.  Whatever the starting position, heading, time step and window
    size, the position phase leaves the boid inside the window rectangle;
    the heading phase does not touch the position; so the boid written
    back by [update] is inside the rectangle, and after a whole tick every
    boid of the flock is. *)
Theorem agents_stay_in_world (dt : R) (window_size : sf.Vector2u) :
  (forall self : Boid,
      in_world window_size (pos_ (update_position dt self window_size))) /\
  (forall (self : Boid) (boids : list Boid),
      pos_ (update_heading self boids) = pos_ self) /\
  (forall (boids : list Boid) (this : nat) (self : Boid),
      (this < length boids)%nat ->
      update dt boids this window_size !! this = Some self ->
      in_world window_size (pos_ self)) /\
  (forall boids : list Boid,
      Forall (fun self => in_world window_size (pos_ self))
             (update_boids dt boids window_size)).
Proof.
  pose proof (fun self => update_position_in_world dt self window_size)
    as Hmove.
  pose proof update_heading_pos as Hsteer.
  assert (Hupd : forall (boids : list Boid) (this : nat) (self : Boid),
             (this < length boids)%nat ->
             update dt boids this window_size !! this = Some self ->
             in_world window_size (pos_ self)).
  { intros boids this self Hlt Hlook.
    destruct (lookup_lt_is_Some_2 boids this Hlt) as [old Hold].
    rewrite (update_lookup_this _ _ _ _ _ Hold) in Hlook.
    injection Hlook as <-. rewrite Hsteer. apply Hmove. }
  split; [exact Hmove|]. split; [exact Hsteer|]. split; [exact Hupd|].
  intros boids. apply Forall_lookup. intros i self Hlook.
  assert (Hi : (i < length boids)%nat).
  { apply lookup_lt_Some in Hlook. unfold update_boids in Hlook.
    rewrite tick_prefix_length in Hlook. exact Hlook. }
  unfold update_boids in Hlook.
  rewrite (tick_prefix_lookup_done dt window_size boids (S i)) in Hlook by lia.
  rewrite tick_prefix_S in Hlook.
  apply (Hupd (tick_prefix dt boids window_size i) i self); [|exact Hlook].
  rewrite tick_prefix_length. exact Hi.
Qed.

(** ** Sums computed by [std::accumulate], on the reals

    Without rounding the running sums are arithmetic means.  The sums the
    program stores are those of [Binary32], in the last part. *)

Lemma fold_left_add_div (f : Boid -> R) (n : R) (l : list Boid) (acc : R) :
  fold_left (fun result boid => result + f boid / n) l acc =
  acc + Rsum (map f l) / n.
Proof.
  revert acc. induction l as [|b l IH]; intros acc; simpl.
  - unfold Rdiv. ring.
  - rewrite IH. unfold Rdiv. ring.
Qed.

Lemma center_of_mass_fold (n : R) (l : list Boid) (acc : sf.Vector2f) :
  fold_left
    (fun result local_flockmate =>
       sf.mkVector2 (sf.x result + sf.x (pos_ local_flockmate) / n)
                    (sf.y result + sf.y (pos_ local_flockmate) / n))
    l acc =
  sf.mkVector2
    (sf.x acc + Rsum (map (fun m => sf.x (pos_ m)) l) / n)
    (sf.y acc + Rsum (map (fun m => sf.y (pos_ m)) l) / n).
Proof.
  revert acc. induction l as [|b l IH]; intros [ax ay]; simpl.
  - f_equal; unfold Rdiv; ring.
  - rewrite IH. simpl. f_equal; unfold Rdiv; ring.
Qed.

Lemma center_of_mass_mean (boids : list Boid) :
  center_of_mass boids =
  sf.mkVector2 (mean (map (fun m => sf.x (pos_ m)) boids))
               (mean (map (fun m => sf.y (pos_ m)) boids)).
Proof.
  unfold center_of_mass, mean.
  rewrite center_of_mass_fold, !length_map. simpl. f_equal; ring.
Qed.

(** ** The heading phase *)

Lemma update_heading_by_branch (self : Boid) (boids : list Boid) :
  update_heading self boids =
  match branch_taken self boids with
  | EarlyReturn | NoBranch => self
  | SeparationBranch =>
      set_rot self
        (kBoidToCenterOfMassRotation self
           (center_of_mass (kSeparationFlockmates self boids)) + 90 + 180)
  | AlignmentBranch =>
      set_rot self (kAverageRotation (kAlignmentFlockmates self boids))
  | CohesionBranch =>
      set_rot self
        (kBoidToCenterOfMassRotation self
           (center_of_mass (kCohesionFlockmates self boids)) + 90)
  end.
Proof.
  unfold update_heading, branch_taken. cbv zeta.
  repeat case_decide; reflexivity.
Qed.

Lemma update_position_radii (dt : R) (self : Boid) (window_size : sf.Vector2u) :
  radii_positive self -> radii_positive (update_position dt self window_size).
Proof. intros H. exact H. Qed.

Lemma moved_in_neighbor_source
    (dt : R) (boids : list Boid) (this : nat) (window_size : sf.Vector2u)
    (self : Boid) :
  boids !! this = Some self ->
  update_position dt self window_size ∈
  neighbor_source dt boids this window_size.
Proof.
  intros Hself. apply list_elem_of_lookup. exists this.
  apply neighbor_source_lookup_this. exact Hself.
Qed.

(** ** Evaluating the tiers *)

Lemma get_flockmates_nil (self : Boid) (d : Z) : get_flockmates self [] d = [].
Proof. reflexivity. Qed.

Lemma get_flockmates_cons_in (self m : Boid) (boids : list Boid) (d : Z) :
  distance_2d (pos_ self) (pos_ m) < IZR d ->
  get_flockmates self (m :: boids) d = m :: get_flockmates self boids d.
Proof.
  intros H. unfold get_flockmates.
  rewrite filter_cons, decide_True by exact H. reflexivity.
Qed.

Lemma get_flockmates_cons_out (self m : Boid) (boids : list Boid) (d : Z) :
  ~ distance_2d (pos_ self) (pos_ m) < IZR d ->
  get_flockmates self (m :: boids) d = get_flockmates self boids d.
Proof.
  intros H. unfold get_flockmates.
  rewrite filter_cons, decide_False by exact H. reflexivity.
Qed.

(** A distance is below / not below a radius: by a hypothesis, for the boid
    itself, or by comparing squares of numerals. *)
Ltac in_range :=
  show_positions;
  first [ assumption
        | rewrite distance_2d_self; lra
        | lra
        | apply distance_2d_lt; [lra | cbn [sf.x sf.y]; lra] ].

Ltac out_of_range :=
  show_positions;
  first [ assumption
        | lra
        | let H := fresh in
          intros H; apply distance_2d_lt in H; [|lra];
          cbn [sf.x sf.y] in H; lra ].

Ltac flockmates_step :=
  first
    [ rewrite get_flockmates_nil
    | rewrite get_flockmates_cons_in by in_range
    | rewrite get_flockmates_cons_out by out_of_range ].

Ltac flockmates :=
  unfold kSeparationFlockmates, kAlignmentFlockmates, kCohesionFlockmates;
  repeat radius_value; repeat flockmates_step.

(** With no time elapsed a boid inside the window is not changed by the
    position phase, and [update] amounts to the heading phase alone. *)
Lemma update_position_dt_0 (self : Boid) (window_size : sf.Vector2u) :
  in_world window_size (pos_ self) ->
  update_position 0 self window_size = self.
Proof.
  intros Hin.
  change (update_position 0 self window_size)
    with (set_pos self (pos_ (update_position 0 self window_size))).
  rewrite (update_position_pos_fixed _ _ Hin).
  destruct self; reflexivity.
Qed.

Lemma update_dt_0 (boids : list Boid) (this : nat) (window_size : sf.Vector2u)
    (self : Boid) :
  boids !! this = Some self ->
  in_world window_size (pos_ self) ->
  neighbor_source 0 boids this window_size = boids /\
  update 0 boids this window_size = <[this := update_heading self boids]> boids.
Proof.
  intros Hself Hin.
  assert (Hsrc : neighbor_source 0 boids this window_size = boids).
  { unfold neighbor_source. rewrite Hself, update_position_dt_0 by exact Hin.
    apply list_insert_id. exact Hself. }
  split; [exact Hsrc|].
  rewrite (update_unfold _ _ _ _ _ Hself), Hsrc, update_position_dt_0 by exact Hin.
  reflexivity.
Qed.

Ltac in_window :=
  unfold in_world, window_800_600, u2f; show_positions;
  cbn [sf.x sf.y Z.of_N]; lra.

(** ** Which branch runs *)

Section HeadingPhase.
Variables (dt : R) (boids : list Boid) (this : nat) (window_size : sf.Vector2u).
Variable self : Boid.
Hypothesis Hself : boids !! this = Some self.
Hypothesis Hradii : radii_positive self.

Let moved := update_position dt self window_size.
Let source := neighbor_source dt boids this window_size.

Lemma moved_in_every_tier :
  moved ∈ kSeparationFlockmates moved source /\
  moved ∈ kAlignmentFlockmates moved source /\
  moved ∈ kCohesionFlockmates moved source.
Proof.
  apply self_in_every_tier.
  - apply moved_in_neighbor_source. exact Hself.
  - apply update_position_radii. exact Hradii.
Qed.

Lemma cohesion_tier_after_return :
  length (kCohesionFlockmates moved source) <> 1%nat ->
  (2 <= length (kCohesionFlockmates moved source))%nat.
Proof.
  intros Hne. destruct moved_in_every_tier as (_ & _ & Hc).
  apply length_pos_of_elem in Hc. lia.
Qed.

Lemma branch_taken_priority :
  branch_taken moved source =
  if decide (length (kCohesionFlockmates moved source) = 1%nat) then EarlyReturn
  else if decide (1 < length (kSeparationFlockmates moved source))%nat
       then SeparationBranch
  else if decide (1 < length (kAlignmentFlockmates moved source))%nat
       then AlignmentBranch
  else CohesionBranch.
Proof.
  unfold branch_taken. repeat case_decide; try reflexivity.
  pose proof (cohesion_tier_after_return ltac:(assumption)). lia.
Qed.

End HeadingPhase.

(** C3.  In the call of [update] for a boid of the array with positive
    radii, once the boid has moved: if the cohesion tier has exactly one
    member the function returns and the heading keeps its value; otherwise
    the cohesion tier has more than one member and exactly one branch
    assigns the heading: the separation branch if the separation tier has
    more than one member, else the alignment branch if the alignment tier
    has more than one member, else the cohesion branch. *)
Theorem steering_priority
    (dt : R) (boids : list Boid) (this : nat) (window_size : sf.Vector2u)
    (self : Boid) :
  boids !! this = Some self ->
  radii_positive self ->
  let moved := update_position dt self window_size in
  let source := neighbor_source dt boids this window_size in
  let cohesion := kCohesionFlockmates moved source in
  let alignment := kAlignmentFlockmates moved source in
  let separation := kSeparationFlockmates moved source in
  let new := update_heading moved source in
  update dt boids this window_size !! this = Some new /\
  pos_ new = pos_ moved /\
  (length cohesion = 1%nat ->
   branch_taken moved source = EarlyReturn /\ rot_ new = rot_ self) /\
  (length cohesion <> 1%nat ->
   (1 < length cohesion)%nat /\
   branch_taken moved source =
     if decide (1 < length separation)%nat then SeparationBranch
     else if decide (1 < length alignment)%nat then AlignmentBranch
     else CohesionBranch) /\
  match branch_taken moved source with
  | EarlyReturn => new = moved
  | SeparationBranch =>
      new = set_rot moved
              (kBoidToCenterOfMassRotation moved (center_of_mass separation)
               + 90 + 180)
  | AlignmentBranch => new = set_rot moved (kAverageRotation alignment)
  | CohesionBranch =>
      new = set_rot moved
              (kBoidToCenterOfMassRotation moved (center_of_mass cohesion) + 90)
  | NoBranch => False
  end.
Proof.
  intros Hself Hradii moved source cohesion alignment separation new.
  pose proof (branch_taken_priority dt boids this window_size self Hself Hradii)
    as Hprio.
  fold moved source in Hprio. fold cohesion alignment separation in Hprio.
  pose proof (update_heading_by_branch moved source) as Hnew.
  fold new in Hnew. fold cohesion alignment separation in Hnew.
  split; [apply update_lookup_this; exact Hself|].
  split; [apply update_heading_pos|].
  split; [|split].
  - intros Hone. rewrite decide_True in Hprio by exact Hone.
    rewrite Hprio in Hnew. rewrite Hnew. split; [exact Hprio | reflexivity].
  - intros Hmany. rewrite decide_False in Hprio by exact Hmany.
    split; [|exact Hprio].
    pose proof (cohesion_tier_after_return dt boids this window_size self
                  Hself Hradii Hmany). fold moved source cohesion in H. lia.
  - rewrite Hprio in *. repeat case_decide; exact Hnew.
Qed.

Lemma flock_pair_tiers :
  kCohesionFlockmates Boid_default flock_pair = flock_pair /\
  kAlignmentFlockmates Boid_default flock_pair = flock_pair /\
  kSeparationFlockmates Boid_default flock_pair = flock_pair.
Proof. unfold flock_pair. repeat split; flockmates; reflexivity. Qed.

(** The priority test: for two boids five units apart every tier has two
    members and the separation branch runs. *)
Lemma steering_priority_witness :
  flock_pair !! 0%nat = Some Boid_default /\
  radii_positive Boid_default /\
  branch_taken (update_position 0 Boid_default window_800_600)
               (neighbor_source 0 flock_pair 0 window_800_600)
  = SeparationBranch.
Proof.
  assert (Hself : flock_pair !! 0%nat = Some Boid_default) by reflexivity.
  assert (Hradii : radii_positive Boid_default) by (repeat split; reflexivity).
  split; [exact Hself | split; [exact Hradii|]].
  destruct (steering_priority 0 flock_pair 0 window_800_600 Boid_default
              Hself Hradii) as (_ & _ & _ & Hmany & _).
  assert (Hin : in_world window_800_600 (pos_ Boid_default)) by in_window.
  destruct (update_dt_0 flock_pair 0 window_800_600 Boid_default Hself Hin)
    as [Hsrc _].
  rewrite Hsrc, (update_position_dt_0 _ _ Hin) in *.
  destruct flock_pair_tiers as (Hc & Ha & Hs).
  rewrite Hc, Hs in Hmany.
  destruct Hmany as [_ Hbranch]; [discriminate|].
  rewrite Hbranch. rewrite decide_True by (simpl; lia). reflexivity.
Defined.

(** C8.  In the call of [update] for a boid of the array with positive
    radii, every list handed to [center_of_mass] is non-empty, so the
    divisor [size()] is not zero: there is no call before the early return,
    and after it the cohesion tier has at least two members while the
    alignment and separation tiers contain the boid itself. *)
Theorem center_of_mass_sets_nonempty
    (dt : R) (boids : list Boid) (this : nat) (window_size : sf.Vector2u)
    (self : Boid) :
  boids !! this = Some self ->
  radii_positive self ->
  let moved := update_position dt self window_size in
  let source := neighbor_source dt boids this window_size in
  update dt boids this window_size =
    <[this := update_heading moved source]> source /\
  Forall (fun set => set <> [] /\ INR (length set) <> 0)
         (center_of_mass_calls moved source) /\
  (center_of_mass_calls moved source = [] /\
   length (kCohesionFlockmates moved source) = 1%nat
   \/
   center_of_mass_calls moved source =
     [ kCohesionFlockmates moved source;
       kAlignmentFlockmates moved source;
       kSeparationFlockmates moved source ] /\
   (2 <= length (kCohesionFlockmates moved source))%nat /\
   moved ∈ kAlignmentFlockmates moved source /\
   moved ∈ kSeparationFlockmates moved source).
Proof.
  intros Hself Hradii moved source.
  destruct (moved_in_every_tier dt boids this window_size self Hself Hradii)
    as (Hs & Ha & Hc).
  fold moved source in Hs, Ha, Hc.
  assert (Hnonempty : forall (set : list Boid) (m : Boid),
             m ∈ set -> set <> [] /\ INR (length set) <> 0).
  { intros set m Hm. apply length_pos_of_elem in Hm.
    split; [intros -> ; simpl in Hm; lia | apply not_0_INR; lia]. }
  split; [apply update_unfold; exact Hself|].
  unfold center_of_mass_calls.
  destruct (decide (length (kCohesionFlockmates moved source) = 1%nat))
    as [Hone|Hmany].
  - split; [constructor | left; split; [reflexivity | exact Hone]].
  - split.
    + repeat constructor; eapply Hnonempty; eassumption.
    + right. split; [reflexivity|]. split; [|split; assumption].
      apply (cohesion_tier_after_return dt boids this window_size self
               Hself Hradii Hmany).
Qed.

(** On [flock_pair], first slot. *)
Lemma center_of_mass_sets_nonempty_witness :
  flock_pair !! 0%nat = Some Boid_default /\
  radii_positive Boid_default /\
  Forall (fun set => set <> [] /\ INR (length set) <> 0)
    (center_of_mass_calls (update_position 0 Boid_default window_800_600)
       (neighbor_source 0 flock_pair 0 window_800_600)).
Proof.
  assert (Hself : flock_pair !! 0%nat = Some Boid_default) by reflexivity.
  assert (Hradii : radii_positive Boid_default) by (repeat split; reflexivity).
  split; [exact Hself | split; [exact Hradii|]].
  apply (center_of_mass_sets_nonempty 0 flock_pair 0 window_800_600
           Boid_default Hself Hradii).
Defined.

(** ** Angles *)

Lemma rad2deg_PI : rad2deg PI = 180.
Proof. unfold rad2deg, kPi. field. apply PI_neq0. Qed.

Lemma rad2deg_linear (k : R) : rad2deg (k * PI) = k * 180.
Proof. unfold rad2deg, kPi. field. apply PI_neq0. Qed.

Lemma atan2_west (py px : R) : py = 0 -> px < 0 -> atan2 py px = PI.
Proof.
  intros -> Hx. unfold atan2.
  rewrite decide_False by lra. rewrite decide_True by lra.
  rewrite decide_False by lra.
  replace (0 / px) with 0 by (unfold Rdiv; ring).
  rewrite atan_0. ring.
Qed.

Lemma atan2_south_west (py px : R) :
  px < 0 -> py = px -> atan2 py px = (- (3 / 4)) * PI.
Proof.
  intros Hx ->. unfold atan2.
  rewrite decide_False by lra. rewrite !decide_True by lra.
  replace (px / px) with 1 by (field; lra).
  rewrite atan_1. field.
Qed.

(** ** The direction a heading stands for *)

Lemma sqrt_scaled (px t : R) :
  0 < px -> sqrt (px * px + (t * px) * (t * px)) = px * sqrt (1 + t * t).
Proof.
  intros Hpx.
  replace (px * px + t * px * (t * px)) with ((px * px) * (1 + t * t)) by ring.
  rewrite sqrt_mult; [| nra | nra].
  rewrite sqrt_square by lra. reflexivity.
Qed.

Lemma sqrt_1_sqr_pos (t : R) : 0 < sqrt (1 + t * t).
Proof. apply sqrt_lt_R0. nra. Qed.

Lemma atan_cos_sin (t : R) :
  cos (atan t) * sqrt (1 + t * t) = 1 /\ sin (atan t) * sqrt (1 + t * t) = t.
Proof.
  pose proof (sqrt_1_sqr_pos t) as Hs.
  rewrite cos_atan, sin_atan. unfold Rsqr.
  replace (t ^ 2) with (t * t) by ring.
  split; field; lra.
Qed.

(** [atan2 py px] is the angle of the vector (px, py). *)
Lemma atan2_polar (py px : R) :
  cos (atan2 py px) * sqrt (px * px + py * py) = px /\
  sin (atan2 py px) * sqrt (px * px + py * py) = py.
Proof.
  unfold atan2.
  destruct (decide (0 < px)) as [Hpos|Hnpos].
  - destruct (atan_cos_sin (py / px)) as [Hc Hs].
    replace (px * px + py * py)
      with (px * px + (py / px * px) * (py / px * px)) by (field; lra).
    rewrite sqrt_scaled by exact Hpos.
    split.
    + transitivity (px * (cos (atan (py / px)) * sqrt (1 + py / px * (py / px)))); [ring|].
      rewrite Hc. ring.
    + transitivity (px * (sin (atan (py / px)) * sqrt (1 + py / px * (py / px)))); [ring|].
      rewrite Hs. field. lra.
  - destruct (decide (px < 0)) as [Hneg|Hnneg].
    + destruct (atan_cos_sin (py / px)) as [Hc Hs].
      assert (Hr : sqrt (px * px + py * py)
                   = (- px) * sqrt (1 + py / px * (py / px))).
      { replace (px * px + py * py)
          with ((- px) * (- px)
                + (- (py / px) * (- px)) * (- (py / px) * (- px)))
          by (field; lra).
        rewrite sqrt_scaled by lra. f_equal. f_equal. ring. }
      assert (Hcos : forall a, cos (a - PI) = - cos a)
        by (intros a; rewrite cos_minus, cos_PI, sin_PI; ring).
      assert (Hsin : forall a, sin (a - PI) = - sin a)
        by (intros a; rewrite sin_minus, cos_PI, sin_PI; ring).
      rewrite Hr.
      destruct (decide (py < 0)); rewrite ?Hcos, ?Hsin, ?neg_cos, ?neg_sin.
      * split.
        -- transitivity (px * (cos (atan (py / px)) * sqrt (1 + py / px * (py / px)))); [ring|].
           rewrite Hc. ring.
        -- transitivity (px * (sin (atan (py / px)) * sqrt (1 + py / px * (py / px)))); [ring|].
           rewrite Hs. field. lra.
      * split.
        -- transitivity (px * (cos (atan (py / px)) * sqrt (1 + py / px * (py / px)))); [ring|].
           rewrite Hc. ring.
        -- transitivity (px * (sin (atan (py / px)) * sqrt (1 + py / px * (py / px)))); [ring|].
           rewrite Hs. field. lra.
    + assert (px = 0) as -> by lra.
      replace (0 * 0 + py * py) with (py * py) by ring.
      destruct (decide (0 < py)) as [Hup|Hnup].
      * rewrite cos_PI2, sin_PI2, sqrt_square by lra. split; ring.
      * destruct (decide (py < 0)) as [Hdown|Hndown].
        -- replace (- PI / 2) with (- (PI / 2)) by field.
           rewrite cos_neg, sin_neg, cos_PI2, sin_PI2.
           replace (py * py) with ((- py) * (- py)) by ring.
           rewrite sqrt_square by lra. split; ring.
        -- assert (py = 0) as -> by lra.
           rewrite Rmult_0_l, sqrt_0. split; ring.
Qed.

Lemma rad2deg_deg2rad (rad : R) : rad2deg rad * PI / 180 = rad.
Proof. unfold rad2deg, kPi. field. apply PI_neq0. Qed.

(** Moving with the heading the cohesion branch assigns displaces the boid
    along the vector from its position to the centre. *)
Lemma heading_toward_center (self : Boid) (center : sf.Vector2f) (dt : R) :
  let heading := kBoidToCenterOfMassRotation self center + 90 in
  let step := IZR (move_speed_ self) * dt in
  let d := distance_2d center (pos_ self) in
  (sf.x (advanced dt (set_rot self heading)) - sf.x (pos_ self)) * d
    = step * (sf.x center - sf.x (pos_ self)) /\
  (sf.y (advanced dt (set_rot self heading)) - sf.y (pos_ self)) * d
    = step * (sf.y center - sf.y (pos_ self)).
Proof.
  intros heading step d.
  destruct (advanced_components dt (set_rot self heading)) as [Hx Hy].
  rewrite Hx, Hy. cbn [pos_ rot_ move_speed_ set_rot]. fold step.
  unfold heading, kBoidToCenterOfMassRotation.
  set (dx := sf.x center - sf.x (pos_ self)).
  set (dy := sf.y center - sf.y (pos_ self)).
  replace ((rad2deg (atan2 dy dx) + 90) * PI / 180)
    with (rad2deg (atan2 dy dx) * PI / 180 + PI / 2) by field.
  rewrite rad2deg_deg2rad, sin_plus, cos_plus, cos_PI2, sin_PI2.
  destruct (atan2_polar dy dx) as [Hc Hs].
  change d with (sqrt (dx * dx + dy * dy)).
  split.
  - transitivity (step * (cos (atan2 dy dx) * sqrt (dx * dx + dy * dy))); [ring|].
    rewrite Hc. reflexivity.
  - transitivity (step * (sin (atan2 dy dx) * sqrt (dx * dx + dy * dy))); [ring|].
    rewrite Hs. reflexivity.
Qed.

(** With the heading the separation branch assigns, along the opposite
    vector. *)
Lemma heading_away_from_center (self : Boid) (center : sf.Vector2f) (dt : R) :
  let heading := kBoidToCenterOfMassRotation self center + 90 + 180 in
  let step := IZR (move_speed_ self) * dt in
  let d := distance_2d center (pos_ self) in
  (sf.x (advanced dt (set_rot self heading)) - sf.x (pos_ self)) * d
    = - (step * (sf.x center - sf.x (pos_ self))) /\
  (sf.y (advanced dt (set_rot self heading)) - sf.y (pos_ self)) * d
    = - (step * (sf.y center - sf.y (pos_ self))).
Proof.
  intros heading step d.
  destruct (advanced_components dt (set_rot self heading)) as [Hx Hy].
  rewrite Hx, Hy. cbn [pos_ rot_ move_speed_ set_rot]. fold step.
  unfold heading, kBoidToCenterOfMassRotation.
  set (dx := sf.x center - sf.x (pos_ self)).
  set (dy := sf.y center - sf.y (pos_ self)).
  replace ((rad2deg (atan2 dy dx) + 90 + 180) * PI / 180)
    with (rad2deg (atan2 dy dx) * PI / 180 + PI / 2 + PI) by field.
  rewrite rad2deg_deg2rad, neg_sin, neg_cos, sin_plus, cos_plus, cos_PI2, sin_PI2.
  destruct (atan2_polar dy dx) as [Hc Hs].
  change d with (sqrt (dx * dx + dy * dy)).
  split.
  - transitivity (- (step * (cos (atan2 dy dx) * sqrt (dx * dx + dy * dy)))); [ring|].
    rewrite Hc. reflexivity.
  - transitivity (- (step * (sin (atan2 dy dx) * sqrt (dx * dx + dy * dy)))); [ring|].
    rewrite Hs. reflexivity.
Qed.

(** ** The branches on concrete flocks *)

Lemma update_dt_0_lookup (boids : list Boid) (this : nat)
    (window_size : sf.Vector2u) (self : Boid) :
  boids !! this = Some self ->
  in_world window_size (pos_ self) ->
  update 0 boids this window_size !! this = Some (update_heading self boids).
Proof.
  intros Hself Hin.
  destruct (update_dt_0 boids this window_size self Hself Hin) as [_ ->].
  apply list_lookup_insert_eq. eapply lookup_lt_Some. exact Hself.
Qed.

Lemma flock_crowded_flees :
  let self := Boid_new (Vector2f_new 110 100) 0 sf.White in
  branch_taken self flock_crowded = SeparationBranch /\
  rot_ (update_heading self flock_crowded) = 450.
Proof.
  intros self.
  assert (Hc : kCohesionFlockmates self flock_crowded = flock_crowded)
    by (unfold self, flock_crowded; flockmates; reflexivity).
  assert (Ha : kAlignmentFlockmates self flock_crowded = flock_crowded)
    by (unfold self, flock_crowded; flockmates; reflexivity).
  assert (Hs : kSeparationFlockmates self flock_crowded = flock_crowded)
    by (unfold self, flock_crowded; flockmates; reflexivity).
  assert (Hb : branch_taken self flock_crowded = SeparationBranch).
  { unfold branch_taken. rewrite Hc, Hs. unfold flock_crowded.
    decide_lengths. reflexivity. }
  split; [exact Hb|].
  rewrite update_heading_by_branch, Hb, Hs. cbn [rot_ set_rot].
  unfold kBoidToCenterOfMassRotation. rewrite center_of_mass_mean.
  unfold mean, flock_crowded, self. show_positions.
  cbn [map Rsum fold_right length INR sf.x sf.y pos_].
  rewrite atan2_west, rad2deg_PI by (simpl; lra). lra.
Qed.

Lemma flock_loose_approaches :
  let self := Boid_new (Vector2f_new 200 100) 0 sf.White in
  branch_taken self flock_loose = CohesionBranch /\
  rot_ (update_heading self flock_loose) = 270.
Proof.
  intros self.
  assert (Hc : kCohesionFlockmates self flock_loose = flock_loose)
    by (unfold self, flock_loose; flockmates; reflexivity).
  assert (Ha : kAlignmentFlockmates self flock_loose = [self])
    by (unfold self, flock_loose; flockmates; reflexivity).
  assert (Hs : kSeparationFlockmates self flock_loose = [self])
    by (unfold self, flock_loose; flockmates; reflexivity).
  assert (Hb : branch_taken self flock_loose = CohesionBranch).
  { unfold branch_taken. rewrite Hc, Ha, Hs. unfold flock_loose.
    decide_lengths. reflexivity. }
  split; [exact Hb|].
  rewrite update_heading_by_branch, Hb, Hc. cbn [rot_ set_rot].
  unfold kBoidToCenterOfMassRotation. rewrite center_of_mass_mean.
  unfold mean, flock_loose, self. show_positions.
  cbn [map Rsum fold_right length INR sf.x sf.y pos_].
  rewrite atan2_west, rad2deg_PI by (simpl; lra). lra.
Qed.

Lemma flock_diagonal_approaches :
  let self := Boid_new (Vector2f_new 180 80) 0 sf.White in
  branch_taken self flock_diagonal = CohesionBranch /\
  rot_ (update_heading self flock_diagonal) = -45.
Proof.
  intros self.
  assert (Hc : kCohesionFlockmates self flock_diagonal = flock_diagonal)
    by (unfold self, flock_diagonal; flockmates; reflexivity).
  assert (Ha : kAlignmentFlockmates self flock_diagonal = [self])
    by (unfold self, flock_diagonal; flockmates; reflexivity).
  assert (Hs : kSeparationFlockmates self flock_diagonal = [self])
    by (unfold self, flock_diagonal; flockmates; reflexivity).
  assert (Hb : branch_taken self flock_diagonal = CohesionBranch).
  { unfold branch_taken. rewrite Hc, Ha, Hs. unfold flock_diagonal.
    decide_lengths. reflexivity. }
  split; [exact Hb|].
  rewrite update_heading_by_branch, Hb, Hc. cbn [rot_ set_rot].
  unfold kBoidToCenterOfMassRotation. rewrite center_of_mass_mean.
  unfold mean, flock_diagonal, self. show_positions.
  cbn [map Rsum fold_right length INR sf.x sf.y pos_].
  rewrite atan2_south_west, rad2deg_linear by (simpl; lra). lra.
Qed.

(** C4.  When the separation branch runs, the new heading is
    rad2deg(atan2(centre.y - pos.y, centre.x - pos.x)) + 90 + 180 for the
    centre of mass of the separation tier; when the cohesion branch runs it
    is rad2deg(atan2(centre.y - pos.y, centre.x - pos.x)) + 90 for the
    centre of mass of the cohesion tier.  Moving with the first heading
    displaces the boid along the vector from the centre to its position
    (away), with the second along the vector from its position to the
    centre (toward).  The value is stored as computed: a call of [update]
    leaves the heading 450 in one flock, 270 in another and -45 in a third,
    so it is brought into neither [0, 360) nor [-180, 180]. *)
Theorem separation_and_cohesion_headings :
  (forall (self : Boid) (boids : list Boid),
      branch_taken self boids = SeparationBranch ->
      let center := center_of_mass (kSeparationFlockmates self boids) in
      rot_ (update_heading self boids) =
      rad2deg (atan2 (sf.y center - sf.y (pos_ self))
                     (sf.x center - sf.x (pos_ self))) + 90 + 180) /\
  (forall (self : Boid) (boids : list Boid),
      branch_taken self boids = CohesionBranch ->
      let center := center_of_mass (kCohesionFlockmates self boids) in
      rot_ (update_heading self boids) =
      rad2deg (atan2 (sf.y center - sf.y (pos_ self))
                     (sf.x center - sf.x (pos_ self))) + 90) /\
  (forall (self : Boid) (boids : list Boid) (dt : R),
      branch_taken self boids = SeparationBranch ->
      let center := center_of_mass (kSeparationFlockmates self boids) in
      let new := update_heading self boids in
      let step := IZR (move_speed_ new) * dt in
      (sf.x (advanced dt new) - sf.x (pos_ new))
        * distance_2d center (pos_ self)
        = - (step * (sf.x center - sf.x (pos_ self))) /\
      (sf.y (advanced dt new) - sf.y (pos_ new))
        * distance_2d center (pos_ self)
        = - (step * (sf.y center - sf.y (pos_ self)))) /\
  (forall (self : Boid) (boids : list Boid) (dt : R),
      branch_taken self boids = CohesionBranch ->
      let center := center_of_mass (kCohesionFlockmates self boids) in
      let new := update_heading self boids in
      let step := IZR (move_speed_ new) * dt in
      (sf.x (advanced dt new) - sf.x (pos_ new))
        * distance_2d center (pos_ self)
        = step * (sf.x center - sf.x (pos_ self)) /\
      (sf.y (advanced dt new) - sf.y (pos_ new))
        * distance_2d center (pos_ self)
        = step * (sf.y center - sf.y (pos_ self))) /\
  (exists self new : Boid,
      flock_crowded !! 0%nat = Some self /\
      branch_taken self flock_crowded = SeparationBranch /\
      update 0 flock_crowded 0 window_800_600 !! 0%nat = Some new /\
      rot_ new = 450) /\
  (exists self new : Boid,
      flock_loose !! 0%nat = Some self /\
      branch_taken self flock_loose = CohesionBranch /\
      update 0 flock_loose 0 window_800_600 !! 0%nat = Some new /\
      rot_ new = 270) /\
  (exists self new : Boid,
      flock_diagonal !! 0%nat = Some self /\
      branch_taken self flock_diagonal = CohesionBranch /\
      update 0 flock_diagonal 0 window_800_600 !! 0%nat = Some new /\
      rot_ new = -45).
Proof.
  split; [|split; [|split; [|split; [|split; [|split]]]]].
  - intros self boids Hb center.
    rewrite update_heading_by_branch, Hb. reflexivity.
  - intros self boids Hb center.
    rewrite update_heading_by_branch, Hb. reflexivity.
  - intros self boids dt Hb center new step. subst new step.
    rewrite update_heading_by_branch, Hb.
    apply (heading_away_from_center self center dt).
  - intros self boids dt Hb center new step. subst new step.
    rewrite update_heading_by_branch, Hb.
    apply (heading_toward_center self center dt).
  - destruct flock_crowded_flees as [Hb Hrot].
    eexists; eexists. split; [reflexivity|]. split; [exact Hb|].
    split; [|exact Hrot]. apply update_dt_0_lookup; [reflexivity | in_window].
  - destruct flock_loose_approaches as [Hb Hrot].
    eexists; eexists. split; [reflexivity|]. split; [exact Hb|].
    split; [|exact Hrot]. apply update_dt_0_lookup; [reflexivity | in_window].
  - destruct flock_diagonal_approaches as [Hb Hrot].
    eexists; eexists. split; [reflexivity|]. split; [exact Hb|].
    split; [|exact Hrot]. apply update_dt_0_lookup; [reflexivity | in_window].
Qed.

(** ** A flock of one *)

Lemma update_at_0 (dt : R) (ws : sf.Vector2u) (a : Boid) (l : list Boid) :
  update dt (a :: l) 0 ws =
  update_heading (update_position dt a ws) (update_position dt a ws :: l) :: l.
Proof. reflexivity. Qed.

(** A flock of one: the cohesion tier is the boid alone, [update] returns
    early, and a tick only moves the boid. *)
Lemma single_agent_keeps_heading
    (dt : R) (ws : sf.Vector2u) (self : Boid) :
  radii_positive self ->
  update_boids dt [self] ws = [update_position dt self ws] /\
  rot_ (update_position dt self ws) = rot_ self.
Proof.
  intros (_ & _ & Hcoh). split; [|reflexivity].
  unfold update_boids, tick_prefix. cbn [length seq fold_left].
  rewrite update_at_0. f_equal.
  rewrite update_heading_by_branch. unfold branch_taken, kCohesionFlockmates.
  rewrite get_flockmates_cons_in, get_flockmates_nil.
  - rewrite decide_True by reflexivity. reflexivity.
  - rewrite distance_2d_self. apply (IZR_lt 0). exact Hcoh.
Qed.

(** * Further properties of the code *)

(** ** Narrowing the tiers *)

Lemma IZR_min_lt (v : R) (d1 d2 : Z) :
  v < IZR d2 /\ v < IZR d1 <-> v < IZR (Z.min d1 d2).
Proof.
  destruct (Z.min_spec d1 d2) as [[Hlt ->]|[Hle ->]].
  - apply IZR_lt in Hlt. lra.
  - apply IZR_le in Hle. lra.
Qed.

Lemma get_flockmates_twice (self : Boid) (boids : list Boid) (d1 d2 : Z) :
  get_flockmates self (get_flockmates self boids d1) d2 =
  get_flockmates self boids (Z.min d1 d2).
Proof.
  unfold get_flockmates. rewrite list_filter_filter.
  apply list_filter_iff. intros m. apply IZR_min_lt.
Qed.

(** X2.  Narrowing a tier out of the previous one gives what a scan of the whole
    flock with the smallest radius so far gives; when the radii are
    ordered, each tier is the scan of the flock with its own radius. *)
Theorem progressive_narrowing (self : Boid) (boids : list Boid) :
  (forall d1 d2 : Z,
      get_flockmates self (get_flockmates self boids d1) d2 =
      get_flockmates self boids (Z.min d1 d2)) /\
  kAlignmentFlockmates self boids =
    get_flockmates self boids
      (Z.min (cohesion_distance self) (alignment_distance self)) /\
  kSeparationFlockmates self boids =
    get_flockmates self boids
      (Z.min (Z.min (cohesion_distance self) (alignment_distance self))
             (separation_distance self)) /\
  ((separation_distance self <= alignment_distance self)%Z ->
   (alignment_distance self <= cohesion_distance self)%Z ->
   kAlignmentFlockmates self boids =
     get_flockmates self boids (alignment_distance self) /\
   kSeparationFlockmates self boids =
     get_flockmates self boids (separation_distance self)).
Proof.
  assert (Ha : kAlignmentFlockmates self boids =
               get_flockmates self boids
                 (Z.min (cohesion_distance self) (alignment_distance self)))
    by apply get_flockmates_twice.
  assert (Hs : kSeparationFlockmates self boids =
               get_flockmates self boids
                 (Z.min (Z.min (cohesion_distance self) (alignment_distance self))
                        (separation_distance self))).
  { unfold kSeparationFlockmates. rewrite Ha. apply get_flockmates_twice. }
  split; [intros; apply get_flockmates_twice|].
  split; [exact Ha|]. split; [exact Hs|].
  intros Hsa Hac. rewrite Ha, Hs. split; f_equal; lia.
Qed.

(** X15.  [get_flockmates] returns nothing for a radius that is not
    positive, returns a sub-list of what a larger radius gives, and never
    more boids than it was given. *)
Theorem flockmates_radius_edges (self : Boid) (boids : list Boid) :
  (forall d : Z, (d <= 0)%Z -> get_flockmates self boids d = []) /\
  (forall d1 d2 : Z,
      (d1 <= d2)%Z ->
      get_flockmates self boids d1 `sublist_of` get_flockmates self boids d2) /\
  (forall d : Z, (length (get_flockmates self boids d) <= length boids)%nat).
Proof.
  split; [|split].
  - intros d Hd. unfold get_flockmates.
    induction boids as [|m boids IH]; [reflexivity|].
    rewrite filter_cons_False; [exact IH|].
    pose proof (distance_2d_nonneg (pos_ self) (pos_ m)) as Hpos.
    apply IZR_le in Hd. lra.
  - intros d1 d2 Hle.
    replace d1 with (Z.min d2 d1) by lia.
    rewrite <- get_flockmates_twice. apply get_flockmates_sublist.
  - intros d. unfold get_flockmates. apply length_filter.
Qed.

(** X3.  Between two boids of the flock with the same three radii, being in
    the other's tier is mutual, for each tier. *)
Theorem tiers_mutual (a b : Boid) (boids : list Boid) :
  a ∈ boids -> b ∈ boids ->
  cohesion_distance a = cohesion_distance b ->
  alignment_distance a = alignment_distance b ->
  separation_distance a = separation_distance b ->
  (b ∈ kCohesionFlockmates a boids <-> a ∈ kCohesionFlockmates b boids) /\
  (b ∈ kAlignmentFlockmates a boids <-> a ∈ kAlignmentFlockmates b boids) /\
  (b ∈ kSeparationFlockmates a boids <-> a ∈ kSeparationFlockmates b boids).
Proof.
  intros Ha Hb Hc Hal Hs.
  unfold kSeparationFlockmates, kAlignmentFlockmates, kCohesionFlockmates.
  rewrite !get_flockmates_twice, Hc, Hal, Hs.
  rewrite !elem_of_get_flockmates, (distance_2d_sym (pos_ a) (pos_ b)).
  tauto.
Qed.

(** On [flock_pair]. *)
Lemma tiers_mutual_witness :
  Boid_default ∈ flock_pair /\
  Boid_new (Vector2f_new 3 4) 0 sf.White ∈ flock_pair /\
  (Boid_new (Vector2f_new 3 4) 0 sf.White
     ∈ kSeparationFlockmates Boid_default flock_pair <->
   Boid_default
     ∈ kSeparationFlockmates (Boid_new (Vector2f_new 3 4) 0 sf.White) flock_pair).
Proof.
  assert (Ha : Boid_default ∈ flock_pair) by apply list_elem_of_here.
  assert (Hb : Boid_new (Vector2f_new 3 4) 0 sf.White ∈ flock_pair)
    by (apply list_elem_of_further, list_elem_of_here).
  split; [exact Ha | split; [exact Hb|]].
  apply (tiers_mutual _ _ flock_pair Ha Hb eq_refl eq_refl eq_refl).
Defined.

(** ** The order of the array *)

Lemma get_flockmates_Permutation (self : Boid) (l l' : list Boid) (d : Z) :
  l ≡ₚ l' -> get_flockmates self l d ≡ₚ get_flockmates self l' d.
Proof. intros H. unfold get_flockmates. rewrite H. reflexivity. Qed.

(** X5.  Which boids a boid finds in each tier, and so which branch of the
    heading phase runs, depends on which boids the array holds, not on
    their order: the tiers over a permuted array are permutations of the
    tiers.  The values the branches compute are running sums in single
    precision and do depend on the order: 95, 100 and 105 accumulate to
    100, but 100, 105 and 95 to 13107199 * 2^-17 = 99.9999924. *)
Theorem tiers_order_irrelevant (self : Boid) (boids boids' : list Boid) :
  boids ≡ₚ boids' ->
  kCohesionFlockmates self boids ≡ₚ kCohesionFlockmates self boids' /\
  kAlignmentFlockmates self boids ≡ₚ kAlignmentFlockmates self boids' /\
  kSeparationFlockmates self boids ≡ₚ kSeparationFlockmates self boids' /\
  branch_taken self boids = branch_taken self boids' /\
  Binary32.running_sum
    [Binary32.of_Z 95; Binary32.of_Z 100; Binary32.of_Z 105] 3
  = Binary32.of_Z 100 /\
  Binary32.running_sum
    [Binary32.of_Z 100; Binary32.of_Z 105; Binary32.of_Z 95] 3
  = S754_finite false 13107199 (-17).
Proof.
  intros H.
  assert (Hc : kCohesionFlockmates self boids ≡ₚ kCohesionFlockmates self boids')
    by (apply get_flockmates_Permutation; exact H).
  assert (Ha : kAlignmentFlockmates self boids ≡ₚ kAlignmentFlockmates self boids')
    by (apply get_flockmates_Permutation; exact Hc).
  assert (Hs : kSeparationFlockmates self boids ≡ₚ kSeparationFlockmates self boids')
    by (apply get_flockmates_Permutation; exact Ha).
  split; [exact Hc|]. split; [exact Ha|]. split; [exact Hs|].
  split; [|split; vm_compute; reflexivity].
  unfold branch_taken.
  rewrite (Permutation_length Hc), (Permutation_length Ha),
    (Permutation_length Hs). reflexivity.
Qed.

(** On [flock_pair] and its reverse. *)
Lemma tiers_order_irrelevant_witness :
  flock_pair ≡ₚ reverse flock_pair /\
  branch_taken Boid_default flock_pair =
  branch_taken Boid_default (reverse flock_pair).
Proof.
  assert (H : flock_pair ≡ₚ reverse flock_pair)
    by (symmetry; apply reverse_Permutation).
  split; [exact H|].
  apply (tiers_order_irrelevant Boid_default _ _ H).
Defined.

(** ** The range of the steering headings *)

Lemma atan2_range (py px : R) : - PI <= atan2 py px <= PI.
Proof.
  pose proof PI_RGT_0 as Hpi. unfold atan2.
  pose proof (atan_bound (py / px)) as [Hlo Hhi].
  destruct (decide (0 < px)); [lra|].
  destruct (decide (px < 0)) as [Hneg|].
  - destruct (decide (py < 0)) as [Hpy|Hpy].
    + assert (0 < py / px).
      { unfold Rdiv. replace (py * / px) with ((- py) * / (- px)) by (field; lra).
        apply Rmult_lt_0_compat; [lra | apply Rinv_0_lt_compat; lra]. }
      pose proof (atan_increasing 0 (py / px) ltac:(assumption)) as Hinc.
      rewrite atan_0 in Hinc. lra.
    + assert (py / px <= 0).
      { unfold Rdiv. replace (py * / px) with (- (py * / (- px))) by (field; lra).
        assert (0 <= py * / - px)
          by (apply Rmult_le_pos; [lra | left; apply Rinv_0_lt_compat; lra]).
        lra. }
      assert (atan (py / px) <= 0).
      { destruct (Req_dec (py / px) 0) as [->|Hne]; [rewrite atan_0; lra|].
        pose proof (atan_increasing (py / px) 0 ltac:(lra)) as Hinc.
        rewrite atan_0 in Hinc. lra. }
      lra.
  - destruct (decide (0 < py)); [lra|]. destruct (decide (py < 0)); lra.
Qed.

Lemma rad2deg_range (rad : R) :
  - PI <= rad <= PI -> -180 <= rad2deg rad <= 180.
Proof.
  intros [Hlo Hhi]. pose proof PI_RGT_0 as Hpi. unfold rad2deg, kPi.
  split.
  - apply Rmult_le_reg_r with PI; [exact Hpi|].
    unfold Rdiv. rewrite Rmult_assoc, Rinv_l by lra. lra.
  - apply Rmult_le_reg_r with PI; [exact Hpi|].
    unfold Rdiv. rewrite Rmult_assoc, Rinv_l by lra. lra.
Qed.

(** X8.  The headings the branches assign: at least 90 and at most 450
    degrees after the separation branch, at least -90 and at most 270 after
    the cohesion branch.  Both ends are reached: in single precision
    [rad2deg] takes [kPi] to exactly 180 and [-kPi] to exactly -180, so an
    arctangent of [-kPi] is stored as heading 90 by the separation branch
    and as -90 by the cohesion branch, and one of [kPi] as 450 and 270. *)
Theorem steering_heading_ranges (self : Boid) (boids : list Boid) :
  (branch_taken self boids = SeparationBranch ->
   90 <= rot_ (update_heading self boids) <= 450) /\
  (branch_taken self boids = CohesionBranch ->
   -90 <= rot_ (update_heading self boids) <= 270) /\
  Binary32.rad2deg Binary32.kPi = Binary32.of_Z 180 /\
  Binary32.rad2deg (Binary32.neg Binary32.kPi) = Binary32.of_Z (-180) /\
  Binary32.add (Binary32.add (Binary32.of_Z (-180)) (Binary32.of_Z 90))
               (Binary32.of_Z 180) = Binary32.of_Z 90 /\
  Binary32.add (Binary32.of_Z (-180)) (Binary32.of_Z 90) = Binary32.of_Z (-90) /\
  Binary32.add (Binary32.add (Binary32.of_Z 180) (Binary32.of_Z 90))
               (Binary32.of_Z 180) = Binary32.of_Z 450 /\
  Binary32.add (Binary32.of_Z 180) (Binary32.of_Z 90) = Binary32.of_Z 270.
Proof.
  split; [|split; [|repeat split; vm_compute; reflexivity]];
    intros Hb; rewrite update_heading_by_branch, Hb; cbn [rot_ set_rot];
    unfold kBoidToCenterOfMassRotation;
    match goal with
    | |- context [rad2deg (atan2 ?a ?b)] =>
        pose proof (rad2deg_range _ (atan2_range a b))
    end; lra.
Qed.

(** ** What a tick leaves alone *)

Lemma update_position_parameters (dt : R) (self : Boid) (ws : sf.Vector2u) :
  parameters (update_position dt self ws) = parameters self.
Proof. reflexivity. Qed.

Lemma update_heading_parameters (self : Boid) (boids : list Boid) :
  parameters (update_heading self boids) = parameters self.
Proof.
  rewrite update_heading_by_branch.
  destruct (branch_taken self boids); reflexivity.
Qed.

Lemma radii_positive_parameters (a b : Boid) :
  parameters a = parameters b -> radii_positive a -> radii_positive b.
Proof.
  unfold parameters, radii_positive, separation_distance, alignment_distance,
    cohesion_distance.
  intros H. injection H as _ -> _ -> -> ->. tauto.
Qed.

Lemma update_parameters (dt : R) (boids : list Boid) (this : nat)
    (ws : sf.Vector2u) :
  map parameters (update dt boids this ws) = map parameters boids.
Proof.
  destruct (boids !! this) as [self|] eqn:Hself.
  - rewrite (update_unfold _ _ _ _ _ Hself). unfold neighbor_source.
    rewrite Hself.
    change map with (@fmap list _) . rewrite !list_fmap_insert.
    rewrite update_heading_parameters, update_position_parameters.
    rewrite list_insert_insert_eq. apply list_insert_id.
    rewrite list_lookup_fmap, Hself. reflexivity.
  - rewrite update_out_of_range by exact Hself. reflexivity.
Qed.

Lemma tick_prefix_parameters (dt : R) (boids : list Boid) (ws : sf.Vector2u)
    (k : nat) :
  map parameters (tick_prefix dt boids ws k) = map parameters boids.
Proof.
  induction k as [|k IH]; [reflexivity|].
  rewrite tick_prefix_S, update_parameters. exact IH.
Qed.

(** X9.  A call of [update] leaves every other slot of the array as it was and
    changes only the position and heading of the receiver; a tick keeps the
    number of boids, every boid's colour, size, speed and distance factors,
    and with them the positivity of the radii. *)
Theorem tick_changes_only_position_and_heading
    (dt : R) (boids : list Boid) (window_size : sf.Vector2u) :
  (forall this i : nat,
      i <> this ->
      update dt boids this window_size !! i = boids !! i) /\
  (forall this : nat,
      length (update dt boids this window_size) = length boids /\
      map parameters (update dt boids this window_size) = map parameters boids) /\
  length (update_boids dt boids window_size) = length boids /\
  map parameters (update_boids dt boids window_size) = map parameters boids /\
  (Forall radii_positive boids ->
   Forall radii_positive (update_boids dt boids window_size)).
Proof.
  split; [intros this i Hne; apply update_lookup_ne; exact Hne|].
  split; [intros this; split; [apply update_length | apply update_parameters]|].
  split; [apply tick_prefix_length|].
  split; [apply tick_prefix_parameters|].
  intros Hall. apply Forall_lookup. intros i new Hnew.
  pose proof (tick_prefix_parameters dt boids window_size (length boids)) as Hp.
  fold (update_boids dt boids window_size) in Hp.
  assert (Hlook : map parameters boids !! i = Some (parameters new)).
  { rewrite <- Hp. change map with (@fmap list _).
    rewrite list_lookup_fmap, Hnew. reflexivity. }
  change map with (@fmap list _) in Hlook. rewrite list_lookup_fmap in Hlook.
  destruct (boids !! i) as [old|] eqn:Hold; [|discriminate].
  assert (Hparams : parameters old = parameters new)
    by (simpl in Hlook; congruence).
  apply (radii_positive_parameters old new Hparams).
  rewrite Forall_lookup in Hall. apply (Hall i old Hold).
Qed.

Lemma filter_only_one {A} (P : A -> Prop) `{!forall x, Decision (P x)}
    (l : list A) (i : nat) (x : A) :
  l !! i = Some x -> P x ->
  (forall j y, j <> i -> l !! j = Some y -> ~ P y) ->
  filter P l = [x].
Proof.
  revert i. induction l as [|a l IH]; intros i Hi HP Hothers; [discriminate|].
  destruct i as [|i]; simpl in Hi.
  - injection Hi as ->. rewrite filter_cons_True by exact HP. f_equal.
    clear IH HP. induction l as [|b l IHl]; [reflexivity|].
    rewrite filter_cons_False
      by (apply (Hothers 1%nat b); [lia | reflexivity]).
    apply IHl. intros [|j] y Hne Hj; [lia|].
    apply (Hothers (S (S j)) y); [lia | exact Hj].
  - rewrite filter_cons_False by (apply (Hothers 0%nat a); [lia | reflexivity]).
    apply (IH i Hi HP). intros j y Hne Hj.
    apply (Hothers (S j) y); [lia | exact Hj].
Qed.

(** X10.  A boid with no other boid inside its cohesion radius, once it has
    moved, only moves: [update] writes back the moved boid with the heading
    it had. *)
Theorem isolated_boid_only_moves
    (dt : R) (boids : list Boid) (this : nat) (window_size : sf.Vector2u)
    (self : Boid) :
  boids !! this = Some self ->
  (0 < cohesion_distance self)%Z ->
  (forall (i : nat) (m : Boid),
      i <> this -> boids !! i = Some m ->
      ~ distance_2d (pos_ (update_position dt self window_size)) (pos_ m)
        < IZR (cohesion_distance self)) ->
  update dt boids this window_size
    = <[this := update_position dt self window_size]> boids /\
  (forall new : Boid,
      update dt boids this window_size !! this = Some new ->
      rot_ new = rot_ self).
Proof.
  intros Hself Hcoh Hfar.
  set (moved := update_position dt self window_size) in *.
  assert (Hsrc : neighbor_source dt boids this window_size
                 = <[this := moved]> boids)
    by (unfold neighbor_source; rewrite Hself; reflexivity).
  assert (Htier : kCohesionFlockmates moved (<[this := moved]> boids) = [moved]).
  { unfold kCohesionFlockmates, get_flockmates.
    apply (filter_only_one _ _ this).
    - apply list_lookup_insert_eq. eapply lookup_lt_Some. exact Hself.
    - rewrite distance_2d_self. apply (IZR_lt 0). exact Hcoh.
    - intros j m Hne Hm. rewrite list_lookup_insert_ne in Hm by congruence.
      apply (Hfar j m Hne Hm). }
  assert (Hhead : update_heading moved (<[this := moved]> boids) = moved).
  { rewrite update_heading_by_branch. unfold branch_taken.
    rewrite Htier, decide_True by reflexivity. reflexivity. }
  assert (Hupd : update dt boids this window_size = <[this := moved]> boids).
  { rewrite (update_unfold _ _ _ _ _ Hself), Hsrc. fold moved.
    rewrite Hhead. apply list_insert_insert_eq. }
  split; [exact Hupd|].
  intros new Hnew. rewrite Hupd in Hnew.
  rewrite list_lookup_insert_eq in Hnew by (eapply lookup_lt_Some; exact Hself).
  injection Hnew as <-. reflexivity.
Qed.

Lemma flock_far_apart (i : nat) (m : Boid) :
  i <> 0%nat -> flock_far !! i = Some m ->
  ~ distance_2d (pos_ (update_position 0 Boid_default window_800_600)) (pos_ m)
    < IZR (cohesion_distance Boid_default).
Proof.
  intros Hne Hm. destruct i as [|[|i]]; [lia | | discriminate].
  injection Hm as <-. rewrite update_position_dt_0 by in_window.
  radius_value. out_of_range.
Qed.

(** On [flock_far], first slot, no time elapsed. *)
Lemma isolated_boid_only_moves_witness :
  flock_far !! 0%nat = Some Boid_default /\
  (0 < cohesion_distance Boid_default)%Z /\
  update 0 flock_far 0 window_800_600
    = <[0%nat := update_position 0 Boid_default window_800_600]> flock_far.
Proof.
  assert (Hself : flock_far !! 0%nat = Some Boid_default) by reflexivity.
  assert (Hcoh : (0 < cohesion_distance Boid_default)%Z) by reflexivity.
  split; [exact Hself | split; [exact Hcoh|]].
  apply (isolated_boid_only_moves 0 flock_far 0 window_800_600 Boid_default
           Hself Hcoh flock_far_apart).
Defined.

(** X11.  With no time elapsed, a tick of a flock that is inside the window
    moves no boid. *)
Theorem still_tick_keeps_positions
    (boids : list Boid) (window_size : sf.Vector2u) :
  Forall (fun self => in_world window_size (pos_ self)) boids ->
  map pos_ (update_boids 0 boids window_size) = map pos_ boids.
Proof.
  intros Hall. unfold update_boids. generalize (length boids) as k.
  induction k as [|k IH]; [reflexivity|].
  rewrite tick_prefix_S.
  set (st := tick_prefix 0 boids window_size k) in *.
  destruct (st !! k) as [self|] eqn:Hself.
  - assert (Hin : in_world window_size (pos_ self)).
    { assert (Hp : map pos_ boids !! k = Some (pos_ self)).
      { rewrite <- IH. change map with (@fmap list _).
        rewrite list_lookup_fmap, Hself. reflexivity. }
      change map with (@fmap list _) in Hp. rewrite list_lookup_fmap in Hp.
      destruct (boids !! k) as [old|] eqn:Hold; [|discriminate].
      simpl in Hp. injection Hp as <-.
      rewrite Forall_lookup in Hall. apply (Hall k old Hold). }
    destruct (update_dt_0 st k window_size self Hself Hin) as [_ ->].
    change map with (@fmap list _). rewrite list_fmap_insert, update_heading_pos.
    rewrite list_insert_id; [exact IH|].
    rewrite list_lookup_fmap, Hself. reflexivity.
  - rewrite update_out_of_range by exact Hself. exact IH.
Qed.

(** On [flock_three]. *)
Lemma still_tick_keeps_positions_witness :
  Forall (fun self => in_world window_800_600 (pos_ self)) flock_three /\
  map pos_ (update_boids 0 flock_three window_800_600) = map pos_ flock_three.
Proof.
  assert (H : Forall (fun self => in_world window_800_600 (pos_ self)) flock_three).
  { unfold flock_three. repeat constructor; in_window. }
  split; [exact H|]. apply (still_tick_keeps_positions _ _ H).
Defined.

(** ** The generated flock *)

Lemma u2i_small (n : N) : (Z.of_N n < 2 ^ 31)%Z -> u2i n = Z.of_N n.
Proof.
  intros H. unfold u2i. rewrite Z.mod_small by lia.
  destruct (Z.ltb_spec (Z.of_N n) (2 ^ 31)); [reflexivity | lia].
Qed.

Lemma i2u8_channel (v : Z) : (50 <= v <= 255)%Z -> (50 <= i2u8 v <= 255)%N.
Proof. intros H. unfold i2u8. rewrite Z.mod_small by lia. lia. Qed.

Lemma has_default_parameters_radii (self : Boid) :
  has_default_parameters self -> radii_positive self.
Proof.
  intros (Hs & _ & H3 & H9 & H14).
  unfold radii_positive, separation_distance, alignment_distance,
    cohesion_distance. rewrite Hs, H3, H9, H14. lia.
Qed.

Section Generated.
Variable G : Type.
Variable draw : Z -> Z -> G -> Z * G.
Hypothesis in_range :
  forall (a b : Z) (gen : G),
    (a <= b)%Z -> (a <= fst (draw a b gen) <= b)%Z.

Lemma random_boid_fresh (window_size : sf.Vector2u) (gen : G) :
  freshly_generated (fst (random_boid draw window_size gen)) /\
  ((Z.of_N (sf.x window_size) < 2 ^ 31)%Z ->
   (Z.of_N (sf.y window_size) < 2 ^ 31)%Z ->
   in_world window_size
     (pos_ (fst (random_boid draw window_size gen)))).
Proof.
  unfold random_boid.
  destruct (draw 0 (u2i (sf.x window_size)) gen)
    as [px g1] eqn:Ex.
  destruct (draw 0 (u2i (sf.y window_size)) g1)
    as [py g2] eqn:Ey.
  pose proof (in_range (-180) 179 g2 ltac:(lia)) as Hrot.
  destruct (draw (-180) 179 g2) as [rot g3].
  pose proof (in_range 50 255 g3 ltac:(lia)) as Hr.
  destruct (draw 50 255 g3) as [red g4].
  pose proof (in_range 50 255 g4 ltac:(lia)) as Hg.
  destruct (draw 50 255 g4) as [green g5].
  pose proof (in_range 50 255 g5 ltac:(lia)) as Hb.
  destruct (draw 50 255 g5) as [blue g6].
  simpl in Hrot, Hr, Hg, Hb. cbn [fst].
  split.
  - unfold freshly_generated, has_default_parameters. cbn.
    repeat split; eauto using i2u8_channel; try (apply i2u8_channel; assumption).
  - intros Hw Hh.
    pose proof (in_range 0 (u2i (sf.x window_size)) gen) as Hpx.
    pose proof (in_range 0 (u2i (sf.y window_size)) g1) as Hpy.
    rewrite Ex in Hpx. rewrite Ey in Hpy.
    rewrite u2i_small in Hpx, Hpy by assumption. cbn [fst] in Hpx, Hpy.
    specialize (Hpx ltac:(lia)). specialize (Hpy ltac:(lia)).
    unfold in_world, u2f. cbn.
    repeat split; apply IZR_le; lia.
Qed.

Lemma random_boids_fresh (count : nat) (window_size : sf.Vector2u) (gen : G) :
  length (fst (random_boids draw count window_size gen))
    = count /\
  Forall freshly_generated
    (fst (random_boids draw count window_size gen)) /\
  ((Z.of_N (sf.x window_size) < 2 ^ 31)%Z ->
   (Z.of_N (sf.y window_size) < 2 ^ 31)%Z ->
   Forall (fun self => in_world window_size (pos_ self))
     (fst (random_boids draw count window_size gen))).
Proof.
  revert gen. induction count as [|count IH]; intros gen.
  - simpl. repeat split; constructor.
  - simpl.
    pose proof (random_boid_fresh window_size gen) as [Hfresh Hin].
    destruct (random_boid draw window_size gen)
      as [boid g1].
    specialize (IH g1). destruct IH as (Hlen & Hall & Hworld).
    destruct (random_boids draw count window_size g1)
      as [rest g2].
    cbn [fst] in *. split; [simpl; congruence|].
    split; [constructor; assumption|].
    intros Hw Hh. constructor; [apply Hin | apply Hworld]; assumption.
Qed.

(** X12.  If every distribution keeps its numbers inside its bounds, the flock
    [generate_random_boids] returns has 40 boids; each has the default
    size, speed and factors, an integral heading from -180 to 179,
    integral coordinates and colour channels from 50 to 255 (opaque); and
    for a window below 2^31 in both directions every boid is inside it. *)
Theorem generated_flock (window_size : sf.Vector2u) (gen : G) :
  let boids := fst (generate_random_boids draw
                      window_size gen) in
  length boids = 40%nat /\
  Forall freshly_generated boids /\
  Forall radii_positive boids /\
  ((Z.of_N (sf.x window_size) < 2 ^ 31)%Z ->
   (Z.of_N (sf.y window_size) < 2 ^ 31)%Z ->
   Forall (fun self => in_world window_size (pos_ self)) boids).
Proof.
  intros boids. subst boids. unfold generate_random_boids.
  destruct (random_boids_fresh 40 window_size gen) as (Hlen & Hall & Hworld).
  split; [exact Hlen|]. split; [exact Hall|]. split; [|exact Hworld].
  eapply Forall_impl; [exact Hall|].
  intros self [Hdef _]. apply has_default_parameters_radii. exact Hdef.
Qed.

End Generated.

Lemma lcg_in_range (a b gen : Z) :
  (a <= b)%Z -> (a <= fst (lcg_distribution a b gen) <= b)%Z.
Proof.
  intros H. unfold lcg_distribution. cbn [fst].
  pose proof (Z.mod_pos_bound gen (b - a + 1) ltac:(lia)). lia.
Qed.

(** With the linear congruential generator. *)
Lemma generated_flock_witness :
  (forall a b gen : Z,
      (a <= b)%Z -> (a <= fst (lcg_distribution a b gen) <= b)%Z) /\
  length (fst (generate_random_boids lcg_distribution window_800_600 2024%Z))
    = 40%nat.
Proof.
  split; [exact lcg_in_range|].
  apply (generated_flock Z lcg_distribution lcg_in_range window_800_600 2024%Z).
Defined.

(** ** The loop of [main] *)

Lemma update_boids_in_world (dt : R) (boids : list Boid) (ws : sf.Vector2u) :
  Forall (fun self => in_world ws (pos_ self)) (update_boids dt boids ws).
Proof.
  apply Forall_lookup. intros i self Hlook.
  assert (Hi : (i < length boids)%nat).
  { apply lookup_lt_Some in Hlook. unfold update_boids in Hlook.
    rewrite tick_prefix_length in Hlook. exact Hlook. }
  unfold update_boids in Hlook.
  rewrite (tick_prefix_lookup_done dt ws boids (S i)) in Hlook by lia.
  rewrite tick_prefix_S in Hlook.
  destruct (lookup_lt_is_Some_2 (tick_prefix dt boids ws i) i) as [old Hold];
    [rewrite tick_prefix_length; exact Hi|].
  rewrite (update_lookup_this _ _ _ _ _ Hold) in Hlook.
  injection Hlook as <-. rewrite update_heading_pos.
  apply update_position_in_world.
Qed.

Lemma has_default_parameters_eq (a b : Boid) :
  parameters a = parameters b ->
  has_default_parameters a -> has_default_parameters b.
Proof.
  unfold parameters, has_default_parameters.
  intros H. injection H as _ -> -> -> -> ->. tauto.
Qed.

Lemma update_boids_default_parameters
    (dt : R) (boids : list Boid) (ws : sf.Vector2u) :
  Forall has_default_parameters boids ->
  Forall has_default_parameters (update_boids dt boids ws).
Proof.
  intros Hall. apply Forall_lookup. intros i new Hnew.
  pose proof (tick_prefix_parameters dt boids ws (length boids)) as Hp.
  fold (update_boids dt boids ws) in Hp.
  assert (Hlook : map parameters boids !! i = Some (parameters new)).
  { rewrite <- Hp. change map with (@fmap list _).
    rewrite list_lookup_fmap, Hnew. reflexivity. }
  change map with (@fmap list _) in Hlook. rewrite list_lookup_fmap in Hlook.
  destruct (boids !! i) as [old|] eqn:Hold; [|discriminate].
  assert (Hparams : parameters old = parameters new)
    by (simpl in Hlook; congruence).
  apply (has_default_parameters_eq old new Hparams).
  rewrite Forall_lookup in Hall. apply (Hall i old Hold).
Qed.

Section MainLoop.
Variable G : Type.
Variable draw : Z -> Z -> G -> Z * G.


Lemma random_boids_default (count : nat) (ws : sf.Vector2u) (gen : G) :
  length (fst (random_boids draw count ws gen)) = count /\
  Forall has_default_parameters (fst (random_boids draw count ws gen)).
Proof.
  revert gen. induction count as [|count IH]; intros gen; simpl.
  - split; constructor.
  - assert (Hd : has_default_parameters (fst (random_boid draw ws gen))).
    { unfold random_boid. repeat destruct (draw _ _ _).
      repeat split. }
    destruct (random_boid draw ws gen) as [boid g1].
    specialize (IH g1). destruct IH as [Hlen Hall].
    destruct (random_boids draw count ws g1) as [rest g2].
    cbn [fst] in *. split; [simpl; congruence | constructor; assumption].
Qed.

Lemma main_start_ok (gen : G) :
  flock_ok (main_start draw gen) /\ window_isOpen (main_start draw gen) = true.
Proof.
  unfold main_start, generate_random_boids.
  pose proof (random_boids_default 40 window_800_600 gen) as H.
  destruct (random_boids draw 40 window_800_600 gen) as [boids g].
  split; [exact H | reflexivity].
Qed.

Lemma handle_event_ok (event : Event) (st : Main G) :
  flock_ok st -> flock_ok (handle_event draw event st).
Proof.
  intros Hok. destruct event as [| w h | [|] |]; try exact Hok.
  unfold handle_event, generate_random_boids.
  pose proof (random_boids_default 40 (window_getSize st) (main_gen st)) as H.
  destruct (random_boids draw 40 (window_getSize st) (main_gen st)) as [boids g].
  exact H.
Qed.

Lemma handle_events_ok (events : list Event) (st : Main G) :
  flock_ok st ->
  flock_ok (fold_left (fun st event => handle_event draw event st) events st).
Proof.
  revert st. induction events as [|e events IH]; intros st Hok; [exact Hok|].
  simpl. apply IH, handle_event_ok, Hok.
Qed.

Lemma frame_ok (f : Frame) (st : Main G) :
  flock_ok st -> flock_ok (frame draw f st) /\ flock_in_window (frame draw f st).
Proof.
  intros Hok. apply (handle_events_ok (polled f)) in Hok as [Hlen Hall].
  unfold frame, flock_ok, flock_in_window. cbn.
  split; [split|].
  - unfold update_boids. rewrite tick_prefix_length. exact Hlen.
  - apply update_boids_default_parameters. exact Hall.
  - apply update_boids_in_world.
Qed.

Lemma main_loop_ok (frames : list Frame) (st : Main G) :
  flock_ok st ->
  flock_ok (main_loop draw frames st) /\
  (flock_in_window st -> flock_in_window (main_loop draw frames st)).
Proof.
  revert st. induction frames as [|f frames IH]; intros st Hok; [tauto|].
  simpl. destruct (window_isOpen st); [|tauto].
  destruct (frame_ok f st Hok) as [Hok' Hin'].
  destruct (IH _ Hok') as [H1 H2]. split; [exact H1 | intros _; apply H2, Hin'].
Qed.


Lemma handle_event_isOpen (event : Event) (st : Main G) :
  window_isOpen (handle_event draw event st) =
  match event with Closed => false | _ => window_isOpen st end.
Proof.
  destruct event as [| w h | [|] |]; try reflexivity.
  unfold handle_event.
  destruct (generate_random_boids draw (window_getSize st) (main_gen st)).
  reflexivity.
Qed.

Lemma handle_events_stay_closed (events : list Event) (st : Main G) :
  window_isOpen st = false ->
  window_isOpen (fold_left (fun st event => handle_event draw event st) events st)
    = false.
Proof.
  revert st. induction events as [|e events IH]; intros st H; [exact H|].
  simpl. apply IH. rewrite handle_event_isOpen. destruct e; auto.
Qed.

Lemma handle_events_isOpen (events : list Event) (st : Main G) :
  (Closed ∈ events ->
   window_isOpen (fold_left (fun st event => handle_event draw event st) events st)
     = false) /\
  (Closed ∉ events ->
   window_isOpen (fold_left (fun st event => handle_event draw event st) events st)
     = window_isOpen st).
Proof.
  revert st. induction events as [|e events IH]; intros st.
  - split; [intros H; inversion H | reflexivity].
  - simpl. destruct (IH (handle_event draw e st)) as [IHin IHout]. split.
    + intros H. apply elem_of_cons in H as [<-|H]; [|apply IHin, H].
      apply handle_events_stay_closed. reflexivity.
    + intros H. rewrite IHout, handle_event_isOpen.
      * destruct e; try reflexivity. exfalso. apply H, list_elem_of_here.
      * intros Hin. apply H, list_elem_of_further, Hin.
Qed.

Lemma main_loop_closed (frames : list Frame) (st : Main G) :
  window_isOpen st = false -> main_loop draw frames st = st.
Proof. intros H. destruct frames; simpl; [|rewrite H]; reflexivity. Qed.

(** X13.  Whatever the generator, the events and the elapsed times: in every
    state [main] reaches the flock has 40 boids with the default size,
    speed and factors (radii 30, 90, 140); and once a frame has run every
    boid is inside the window as it was sized in the last frame run. *)
Theorem main_invariant (frames : list Frame) (gen : G) :
  let st := main draw frames gen in
  length (main_boids st) = 40%nat /\
  Forall has_default_parameters (main_boids st) /\
  Forall radii_positive (main_boids st) /\
  (frames <> [] -> flock_in_window st).
Proof.
  intros st. subst st. unfold main.
  destruct (main_start_ok gen) as [Hok Hopen].
  destruct (main_loop_ok frames _ Hok) as [[Hlen Hall] _].
  split; [exact Hlen|]. split; [exact Hall|]. split.
  - eapply Forall_impl; [exact Hall|]. apply has_default_parameters_radii.
  - intros Hne. destruct frames as [|f rest]; [congruence|].
    simpl. rewrite Hopen.
    destruct (frame_ok f _ Hok) as [Hok' Hin'].
    apply (main_loop_ok rest _ Hok'). exact Hin'.
Qed.

(** X14.  The frame in which [Closed] is polled still runs to its end, tick
    included, and is the last one; a frame without it leaves the window as
    open as it was. *)
Theorem closing_frame_is_last (f : Frame) (rest : list Frame) (st : Main G) :
  window_isOpen st = true ->
  (Closed ∈ polled f ->
   window_isOpen (frame draw f st) = false /\
   main_loop draw (f :: rest) st = frame draw f st) /\
  (Closed ∉ polled f ->
   window_isOpen (frame draw f st) = true /\
   main_loop draw (f :: rest) st = main_loop draw rest (frame draw f st)).
Proof.
  intros Hopen.
  destruct (handle_events_isOpen (polled f) st) as [Hclosed Hkept].
  split; intros Hin.
  - assert (Hframe : window_isOpen (frame draw f st) = false)
      by (unfold frame; cbn [window_isOpen]; apply Hclosed, Hin).
    split; [exact Hframe|].
    simpl. rewrite Hopen. apply main_loop_closed. exact Hframe.
  - assert (Hframe : window_isOpen (frame draw f st) = true)
      by (unfold frame; cbn [window_isOpen]; rewrite (Hkept Hin); exact Hopen).
    split; [exact Hframe|].
    simpl. rewrite Hopen. reflexivity.
Qed.

End MainLoop.

(** With the linear congruential generator: R is pressed and the window
    closed in the first frame; the second frame is not run. *)
Lemma closing_frame_is_last_witness :
  window_isOpen (main_start lcg_distribution 2024%Z) = true /\
  main_loop lcg_distribution
    [mkFrame [KeyPressed KeyR; Closed] 0; mkFrame [] 1]
    (main_start lcg_distribution 2024%Z)
  = frame lcg_distribution (mkFrame [KeyPressed KeyR; Closed] 0)
      (main_start lcg_distribution 2024%Z).
Proof.
  destruct (main_start_ok Z lcg_distribution 2024%Z) as [_ Hopen].
  split; [exact Hopen|].
  destruct (closing_frame_is_last Z lcg_distribution
              (mkFrame [KeyPressed KeyR; Closed] 0) [mkFrame [] 1] _ Hopen)
    as [Hclosing _].
  apply Hclosing. apply list_elem_of_further, list_elem_of_here.
Defined.

(** * Single precision: what the code stores *)

(** ** Arithmetic facts of the format *)

(** The integer operations of [SpecFloat] are those of [Z]. *)
Ltac std_Z :=
  change IntDef.Z.sub with Z.sub in *;
  change IntDef.Z.add with Z.add in *;
  change IntDef.Z.max with Z.max in *;
  change IntDef.Z.min with Z.min in *;
  change IntDef.Z.eqb with Z.eqb in *;
  change IntDef.Z.leb with Z.leb in *;
  change IntDef.Z.mul with Z.mul in *;
  change IntDef.Z.div_eucl with Z.div_eucl in *;
  change IntDef.Z.shiftl with Z.shiftl in *;
  change IntDef.Z.even with Z.even in *.

Lemma div_eucl_exact (q b : Z) : (0 < b)%Z -> Z.div_eucl (q * b) b = (q, 0%Z).
Proof.
  intros Hb.
  pose proof (Z.div_mul q b ltac:(lia)) as Hq.
  pose proof (Z.mod_mul q b ltac:(lia)) as Hr.
  unfold Z.div, Z.modulo in Hq, Hr.
  destruct (Z.div_eucl (q * b) b) as [q' r']. congruence.
Qed.

(** [x - x] is [+0] for every number [x]. *)
Lemma sub_self_f32 (a : Binary32.float) :
  Binary32.is_finite a = true -> Binary32.sub a a = Binary32.zero.
Proof.
  destruct a as [s|s| |s m e]; cbn; try discriminate; intros _.
  - destruct s; reflexivity.
  - unfold Binary32.sub, SFsub.
    rewrite Z.min_id. unfold shl_align.
    change (IntDef.Z.sub e e) with (Z.sub e e). rewrite Z.sub_diag.
    reflexivity.
Qed.

(** [x / 1.0f] is [x] for every number [x]: the division is exact and the
    quotient needs no rounding, for normal and for subnormal [x]. *)
Lemma div_one_finite_f32 (s : bool) (m : positive) (e : Z) :
  bounded 24 128 m e = true ->
  SFdiv 24 128 (S754_finite s m e) (S754_finite false 8388608 (-23))
  = S754_finite s m e.
Proof.
  unfold bounded, canonical_mantissa, fexp, emin. std_Z.
  intros H. apply andb_prop in H as [Hc He].
  apply Z.eqb_eq in Hc. apply Z.leb_le in He.
  set (d := Zpos (digits2_pos m)) in *.
  assert (Hd : (0 < d)%Z) by reflexivity.
  unfold SFdiv, SFdiv_core_binary, Zdigits2.
  change (digits2_pos 8388608) with 24%positive.
  fold d. unfold fexp, emin. std_Z.
  destruct (Z.eq_dec e (-149)%Z) as [->|Hne].
  - replace (Z.min (Z.max (d + -149 - (24 + -23) - 24) (3 - 128 - 24))
                   (-149 - -23))%Z
      with (-149)%Z by lia.
    change (-149 - -23 - -149)%Z with 23%Z.
    rewrite Z.shiftl_mul_pow2 by lia.
    change (2 ^ 23)%Z with 8388608%Z.
    rewrite div_eucl_exact by lia.
    change (new_location 8388608 0) with loc_Exact.
    unfold binary_round_aux, shr_fexp, Zdigits2, fexp, emin. std_Z. fold d.
    replace (Z.max (d + -149 - 24) (3 - 128 - 24) - -149)%Z with 0%Z by lia.
    cbn [shr shr_record_of_loc shr_m loc_of_shr_record round_nearest_even].
    fold d.
    replace (Z.max (d + -149 - 24) (3 - 128 - 24) - -149)%Z with 0%Z by lia.
    cbn. destruct s; reflexivity.
  - replace (Z.min (Z.max (d + e - (24 + -23) - 24) (3 - 128 - 24))
                   (e - -23))%Z
      with (e - 1)%Z by lia.
    replace (e - -23 - (e - 1))%Z with 24%Z by lia.
    rewrite Z.shiftl_mul_pow2 by lia.
    replace (Z.pos m * 2 ^ 24)%Z with (Z.pos m~0 * 8388608)%Z by lia.
    rewrite div_eucl_exact by lia.
    change (new_location 8388608 0) with loc_Exact.
    unfold binary_round_aux, shr_fexp, Zdigits2, fexp, emin. std_Z.
    cbn [digits2_pos].
    replace (Z.pos (Pos.succ (digits2_pos m))) with (d + 1)%Z by lia.
    replace (Z.max (d + 1 + (e - 1) - 24) (3 - 128 - 24) - (e - 1))%Z
      with 1%Z by lia.
    cbn [shr shr_record_of_loc shr_m loc_of_shr_record round_nearest_even
         SpecFloat.iter_pos shr_1 orb].
    fold d.
    replace (e - 1 + 1)%Z with e by lia.
    replace (Z.max (d + e - 24) (3 - 128 - 24) - e)%Z with 0%Z by lia.
    cbn [shr shr_m].
    replace (e <=? 128 - 24)%Z with true by (symmetry; apply Z.leb_le; lia).
    destruct s; reflexivity.
Qed.

Lemma div_one_f32 (a : Binary32.float) :
  Binary32.is_finite a = true -> Binary32.div a (Binary32.of_nat 1) = a.
Proof.
  destruct a as [s|s| |s m e]; cbn [Binary32.is_finite]; try discriminate.
  - intros _. destruct s; reflexivity.
  - intros H. apply (div_one_finite_f32 s m e H).
Qed.

(** [0.0f + x] is [x], except that [0.0f + -0.0f] is [0.0f]. *)
Lemma add_zero_f32 (a : Binary32.float) :
  a <> S754_zero true -> Binary32.add Binary32.zero a = a.
Proof.
  destruct a as [s|s| |s m e]; try reflexivity.
  destruct s; [congruence | reflexivity].
Qed.

Lemma eqb_refl_f32 (a : Binary32.float) :
  Binary32.is_finite a = true -> Binary32.eqb a a = true.
Proof.
  destruct a as [s|s| |s m e]; cbn [Binary32.is_finite]; try discriminate;
    intros _; [reflexivity|].
  unfold Binary32.eqb, SFeqb, SFcompare.
  change IntDef.Z.compare with Z.compare.
  rewrite Z.compare_refl.
  change (PosDef.Pos.compare_cont Eq m m) with (Pos.compare_cont Eq m m).
  rewrite Pos.compare_cont_refl.
  destruct s; reflexivity.
Qed.

Lemma eqb_add_zero_f32 (a : Binary32.float) :
  Binary32.is_finite a = true ->
  Binary32.eqb (Binary32.add Binary32.zero a) a = true.
Proof.
  intros H. destruct a as [s|s| |s m e]; try discriminate.
  - destruct s; reflexivity.
  - rewrite add_zero_f32 by discriminate. apply eqb_refl_f32, H.
Qed.

(** Below 90 is below 140. *)
Lemma ltb_90_140_f32 (d : Binary32.float) :
  Binary32.ltb d (Binary32.of_Z 90) = true ->
  Binary32.ltb d (Binary32.of_Z 140) = true.
Proof.
  change (Binary32.of_Z 90) with (S754_finite false 11796480 (-17)).
  change (Binary32.of_Z 140) with (S754_finite false 9175040 (-16)).
  unfold Binary32.ltb, SFltb, SFcompare.
  destruct d as [s|s| |s m e]; try discriminate;
    try (destruct s; congruence).
  destruct s; [reflexivity|].
  change IntDef.Z.compare with Z.compare.
  destruct (Z.compare_spec e (-17)) as [->|Hlt|Hgt]; try discriminate.
  - reflexivity.
  - intros _.
    assert (He : (e ?= -16)%Z = Lt) by (apply Z.compare_lt_iff; lia).
    rewrite He. reflexivity.
Qed.

(** Rounding does not look at the sign: the result for the opposite sign
    is the opposite result. *)
Lemma binary_round_aux_sign (s : bool) (m e : Z) (l : location) :
  binary_round_aux 24 128 (negb s) m e l
  = SFopp (binary_round_aux 24 128 s m e l).
Proof.
  unfold binary_round_aux.
  destruct (shr_fexp 24 128 m e l) as [mrs' e'].
  destruct (shr_fexp 24 128 _ e' loc_Exact) as [mrs'' e''].
  destruct (shr_m mrs''); [reflexivity| |reflexivity].
  destruct (IntDef.Z.leb e'' _); reflexivity.
Qed.

Lemma binary_normalize_opp (z e : Z) :
  z <> 0%Z ->
  binary_normalize 24 128 (- z) e false
  = SFopp (binary_normalize 24 128 z e false).
Proof.
  intros Hz. destruct z as [|p|p]; [congruence| |].
  - change (- Z.pos p)%Z with (Z.neg p).
    cbn [binary_normalize]. unfold binary_round.
    destruct (shl_align p e _) as [mz ez].
    apply (binary_round_aux_sign false).
  - change (- Z.neg p)%Z with (Z.pos p).
    cbn [binary_normalize]. unfold binary_round.
    destruct (shl_align p e _) as [mz ez].
    apply (binary_round_aux_sign true).
Qed.

Lemma square_opp_f32 (u : Binary32.float) :
  Binary32.mul (SFopp u) (SFopp u) = Binary32.mul u u.
Proof.
  unfold Binary32.mul.
  destruct u as [s|s| |s m e]; try reflexivity; destruct s; reflexivity.
Qed.

(** [b - a] is the opposite of [a - b], or both are [+0]. *)
Lemma sub_swap_f32 (a b : Binary32.float) :
  Binary32.sub b a = Binary32.sub a b \/
  Binary32.sub b a = SFopp (Binary32.sub a b).
Proof.
  unfold Binary32.sub.
  destruct a as [sa|sa| |sa ma ea], b as [sb|sb| |sb mb eb];
    try (destruct sa, sb; cbn; auto; fail);
    try (destruct sa; cbn; auto; fail);
    try (destruct sb; cbn; auto; fail);
    try (cbn; auto; fail).
  unfold SFsub. rewrite (Z.min_comm eb ea).
  set (ez := Z.min ea eb).
  set (za := cond_Zopp sa (Z.pos (fst (shl_align ma ea ez)))).
  set (zb := cond_Zopp sb (Z.pos (fst (shl_align mb eb ez)))).
  change (IntDef.Z.sub zb za) with (zb - za)%Z.
  change (IntDef.Z.sub za zb) with (za - zb)%Z.
  destruct (Z.eq_dec (za - zb)%Z 0%Z) as [E|N].
  - left. replace (zb - za)%Z with 0%Z by lia. rewrite E. reflexivity.
  - right. replace (zb - za)%Z with (- (za - zb))%Z by lia.
    apply binary_normalize_opp, N.
Qed.

Lemma square_sub_swap_f32 (a b : Binary32.float) :
  Binary32.mul (Binary32.sub b a) (Binary32.sub b a)
  = Binary32.mul (Binary32.sub a b) (Binary32.sub a b).
Proof.
  destruct (sub_swap_f32 a b) as [->| ->]; [reflexivity | apply square_opp_f32].
Qed.

Lemma distance_2d_sym_f32 (a b : Binary32.Vector2f) :
  Binary32.distance_2d a b = Binary32.distance_2d b a.
Proof.
  unfold Binary32.distance_2d, Binary32.vsub. cbn [sf.x sf.y].
  rewrite (square_sub_swap_f32 (sf.x a) (sf.x b)),
          (square_sub_swap_f32 (sf.y a) (sf.y b)).
  reflexivity.
Qed.

(** A square root is never below zero. *)
Lemma binary_round_aux_nonneg (m e : Z) (l : location) :
  Binary32.ltb (binary_round_aux 24 128 false m e l) Binary32.zero = false.
Proof.
  unfold binary_round_aux.
  destruct (shr_fexp 24 128 m e l) as [mrs' e'].
  destruct (shr_fexp 24 128 _ e' loc_Exact) as [mrs'' e''].
  destruct (shr_m mrs''); [reflexivity| |reflexivity].
  destruct (IntDef.Z.leb e'' _); reflexivity.
Qed.

Lemma sqrt_nonneg_f32 (u : Binary32.float) :
  Binary32.ltb (Binary32.sqrt u) Binary32.zero = false.
Proof.
  unfold Binary32.sqrt, SFsqrt.
  destruct u as [s|s| |s m e]; try reflexivity; try (destruct s; reflexivity).
  destruct s; [reflexivity|].
  destruct (SFsqrt_core_binary _ _ _ _) as [[mz ez] lz].
  apply binary_round_aux_nonneg.
Qed.

(** ** Distances and tiers *)

Lemma distance_2d_self_f32 (p : Binary32.Vector2f) :
  Binary32.finite_position p = true ->
  Binary32.distance_2d p p = Binary32.zero.
Proof.
  unfold Binary32.finite_position. intros H.
  apply andb_prop in H as [Hx Hy].
  unfold Binary32.distance_2d, Binary32.vsub. cbn [sf.x sf.y].
  rewrite (sub_self_f32 _ Hx), (sub_self_f32 _ Hy). reflexivity.
Qed.

Lemma distance_2d_nonneg_f32 (a b : Binary32.Vector2f) :
  Binary32.ltb (Binary32.distance_2d a b) Binary32.zero = false.
Proof. unfold Binary32.distance_2d. apply sqrt_nonneg_f32. Qed.

Lemma default_radii_f32 (self : Binary32.Boid) :
  Binary32.has_default_parameters self ->
  Binary32.cohesion_distance self = 140%Z /\
  Binary32.alignment_distance self = 90%Z /\
  Binary32.separation_distance self = 30%Z.
Proof.
  intros (Hs & _ & H3 & H9 & H14).
  unfold Binary32.cohesion_distance, Binary32.alignment_distance,
    Binary32.separation_distance.
  rewrite Hs, H3, H9, H14. repeat split; reflexivity.
Qed.

Lemma filter_all_f32 {A} (f : A -> bool) (l : list A) :
  Forall (fun a => f a = true) l -> List.filter f l = l.
Proof.
  induction 1 as [|a l Ha _ IH]; [reflexivity|].
  cbn [List.filter]. rewrite Ha, IH. reflexivity.
Qed.

(** A boid with the constructor's radii finds itself in its alignment
    tier, whatever else the source holds. *)
Lemma self_in_alignment_tier_f32 (self : Binary32.Boid)
    (boids : list Binary32.Boid) :
  Binary32.has_default_parameters self ->
  Binary32.finite_position (Binary32.pos_ self) = true ->
  In self boids ->
  In self (Binary32.kAlignmentFlockmates self boids).
Proof.
  intros Hpar Hfin Hin.
  destruct (default_radii_f32 self Hpar) as (Hc & Ha & _).
  unfold Binary32.kAlignmentFlockmates, Binary32.kCohesionFlockmates,
    Binary32.get_flockmates.
  rewrite Hc, Ha.
  apply filter_In. split.
  - apply filter_In. split; [exact Hin|].
    rewrite (distance_2d_self_f32 _ Hfin). reflexivity.
  - rewrite (distance_2d_self_f32 _ Hfin). reflexivity.
Qed.

(** ** The running sums of [std::accumulate] *)

Lemma kAverageRotation_fold_f32 (n : Binary32.float)
    (l : list Binary32.Boid) (acc : Binary32.float) :
  fold_left (fun result boid =>
               Binary32.add result (Binary32.div (Binary32.rot_ boid) n))
            l acc
  = fold_left (fun result v => Binary32.add result (Binary32.div v n))
              (map Binary32.rot_ l) acc.
Proof.
  revert acc. induction l as [|b l IH]; intros acc; [reflexivity|].
  cbn [fold_left map]. apply IH.
Qed.

Lemma kAverageRotation_running_sum (flockmates : list Binary32.Boid) :
  Binary32.kAverageRotation flockmates
  = Binary32.running_sum (map Binary32.rot_ flockmates) (length flockmates).
Proof.
  unfold Binary32.kAverageRotation, Binary32.running_sum.
  apply kAverageRotation_fold_f32.
Qed.

Lemma center_of_mass_fold_f32 (n : Binary32.float)
    (l : list Binary32.Boid) (ax ay : Binary32.float) :
  fold_left
    (fun result local_flockmate =>
       sf.mkVector2
         (Binary32.add (sf.x result)
            (Binary32.div (sf.x (Binary32.pos_ local_flockmate)) n))
         (Binary32.add (sf.y result)
            (Binary32.div (sf.y (Binary32.pos_ local_flockmate)) n)))
    l (sf.mkVector2 ax ay)
  = sf.mkVector2
      (fold_left (fun result v => Binary32.add result (Binary32.div v n))
         (map (fun b => sf.x (Binary32.pos_ b)) l) ax)
      (fold_left (fun result v => Binary32.add result (Binary32.div v n))
         (map (fun b => sf.y (Binary32.pos_ b)) l) ay).
Proof.
  revert ax ay. induction l as [|b l IH]; intros ax ay; [reflexivity|].
  cbn [fold_left map sf.x sf.y]. apply IH.
Qed.

Lemma center_of_mass_running_sum (boids : list Binary32.Boid) :
  Binary32.center_of_mass boids
  = sf.mkVector2
      (Binary32.running_sum (map (fun b => sf.x (Binary32.pos_ b)) boids)
         (length boids))
      (Binary32.running_sum (map (fun b => sf.y (Binary32.pos_ b)) boids)
         (length boids)).
Proof.
  unfold Binary32.center_of_mass, Binary32.running_sum.
  apply center_of_mass_fold_f32.
Qed.

(** ** The position phase with no time elapsed *)

Lemma update_position_rot_f32
    (transformPoint : Binary32.float -> Binary32.float -> Binary32.float ->
                      Binary32.Vector2f)
    (dt : Binary32.float) (self : Binary32.Boid) (ws : sf.Vector2u) :
  Binary32.rot_ (Binary32.update_position transformPoint dt self ws)
  = Binary32.rot_ self.
Proof. reflexivity. Qed.

Lemma update_position_parameters_f32
    (transformPoint : Binary32.float -> Binary32.float -> Binary32.float ->
                      Binary32.Vector2f)
    (dt : Binary32.float) (self : Binary32.Boid) (ws : sf.Vector2u) :
  Binary32.has_default_parameters self ->
  Binary32.has_default_parameters
    (Binary32.update_position transformPoint dt self ws).
Proof. intros H. exact H. Qed.

Lemma positive_finite_f32 (a : Binary32.float) :
  Binary32.is_finite a = true -> Binary32.ltb Binary32.zero a = true ->
  exists m e, a = S754_finite false m e.
Proof.
  destruct a as [s|s| |s m e]; cbn; try discriminate.
  destruct s; [discriminate|]. intros _ _. eauto.
Qed.

Lemma update_position_still_f32
    (transformPoint : Binary32.float -> Binary32.float -> Binary32.float ->
                      Binary32.Vector2f)
    (self : Binary32.Boid) (ws : sf.Vector2u) :
  Binary32.fixes_origin transformPoint ->
  Binary32.has_default_parameters self ->
  Binary32.is_finite (Binary32.rot_ self) = true ->
  Binary32.unwrapped ws (Binary32.pos_ self) = true ->
  Binary32.update_position transformPoint Binary32.zero self ws = self.
Proof.
  intros Hfix (_ & Hspeed & _) Hrot Hin.
  unfold Binary32.unwrapped, Binary32.finite_position in Hin.
  apply andb_prop in Hin as [Hin Hgy]. apply andb_prop in Hin as [Hin Hly].
  apply andb_prop in Hin as [Hin Hgx]. apply andb_prop in Hin as [Hin Hlx].
  apply andb_prop in Hin as [Hfx Hfy].
  apply negb_true_iff in Hgx, Hgy.
  destruct (positive_finite_f32 _ Hfx Hlx) as (mx & ex & Hx).
  destruct (positive_finite_f32 _ Hfy Hly) as (my & ey & Hy).
  unfold Binary32.update_position. rewrite Hspeed.
  change (Binary32.mul (Binary32.of_Z 200) Binary32.zero) with Binary32.zero.
  destruct (Hfix (Binary32.rot_ self) Hrot) as [Hzx Hzy].
  destruct (transformPoint (Binary32.rot_ self) (Binary32.of_Z 0)
              (Binary32.neg Binary32.zero)) as [dx dy].
  cbn [sf.x sf.y] in Hzx, Hzy.
  destruct dx as [sx| | |]; try contradiction.
  destruct dy as [sy| | |]; try contradiction.
  destruct self as [[px py] rot col sz sp f3 f9 f14].
  cbn [Binary32.pos_ sf.x sf.y] in *. subst px py.
  unfold Binary32.vadd. cbn [sf.x sf.y].
  change (Binary32.add (S754_finite false mx ex) (S754_zero sx))
    with (S754_finite false mx ex).
  change (Binary32.add (S754_finite false my ey) (S754_zero sy))
    with (S754_finite false my ey).
  change (Binary32.ltb (S754_finite false mx ex) (Binary32.of_Z 0)) with false.
  cbn iota. cbn [sf.x sf.y].
  rewrite Hgx.
  cbn iota. cbn [sf.x sf.y].
  change (Binary32.ltb (S754_finite false my ey) (Binary32.of_Z 0)) with false.
  cbn iota. cbn [sf.x sf.y].
  rewrite Hgy.
  reflexivity.
Qed.

Lemma rotated_origin_fixes_origin :
  Binary32.fixes_origin Binary32.rotated_origin.
Proof. intros angle _. split; exact I. Qed.

(** ** One call of [update], by index *)

Section UpdateByIndex.
Variable transformPoint :
  Binary32.float -> Binary32.float -> Binary32.float -> Binary32.Vector2f.
Variable atan2 : Binary32.float -> Binary32.float -> Binary32.float.
Variables (dt : Binary32.float) (ws : sf.Vector2u).

Lemma update_at_0_f32 (a : Binary32.Boid) (l : list Binary32.Boid) :
  Binary32.update transformPoint atan2 dt (a :: l) 0 ws
  = Binary32.update_heading atan2
      (Binary32.update_position transformPoint dt a ws)
      (Binary32.update_position transformPoint dt a ws :: l) :: l.
Proof. reflexivity. Qed.

Lemma update_at_1_f32 (a b : Binary32.Boid) (l : list Binary32.Boid) :
  Binary32.update transformPoint atan2 dt (a :: b :: l) 1 ws
  = a :: Binary32.update_heading atan2
           (Binary32.update_position transformPoint dt b ws)
           (a :: Binary32.update_position transformPoint dt b ws :: l) :: l.
Proof. reflexivity. Qed.

Lemma update_at_2_f32 (a b c : Binary32.Boid) (l : list Binary32.Boid) :
  Binary32.update transformPoint atan2 dt (a :: b :: c :: l) 2 ws
  = a :: b :: Binary32.update_heading atan2
                (Binary32.update_position transformPoint dt c ws)
                (a :: b :: Binary32.update_position transformPoint dt c ws :: l)
            :: l.
Proof. reflexivity. Qed.

End UpdateByIndex.

(** ** The alignment branch *)

(** A boid that has the whole source inside its alignment radius and at
    most one member of it inside its separation radius takes the alignment
    branch over the whole source. *)
Lemma update_heading_all_aligned_f32
    (atan2 : Binary32.float -> Binary32.float -> Binary32.float)
    (self : Binary32.Boid) (source : list Binary32.Boid) :
  Binary32.has_default_parameters self ->
  (1 < length source)%nat ->
  Forall (fun m => Binary32.ltb
                     (Binary32.distance_2d (Binary32.pos_ self) (Binary32.pos_ m))
                     (Binary32.of_Z 90) = true) source ->
  (length (List.filter
             (fun m => Binary32.ltb
                         (Binary32.distance_2d (Binary32.pos_ self)
                            (Binary32.pos_ m))
                         (Binary32.of_Z 30)) source) <= 1)%nat ->
  Binary32.update_heading atan2 self source
  = Binary32.set_rot self (Binary32.kAverageRotation source).
Proof.
  intros Hpar Hlen Hali Hsep.
  destruct (default_radii_f32 self Hpar) as (Hc & Ha & Hs).
  assert (Hcoh : Binary32.kCohesionFlockmates self source = source).
  { unfold Binary32.kCohesionFlockmates, Binary32.get_flockmates.
    rewrite Hc. apply filter_all_f32.
    eapply Forall_impl; [exact Hali|].
    intros m Hm. cbn beta in *. apply ltb_90_140_f32, Hm. }
  assert (Hal : Binary32.kAlignmentFlockmates self source = source).
  { unfold Binary32.kAlignmentFlockmates. rewrite Hcoh.
    unfold Binary32.get_flockmates. rewrite Ha.
    apply filter_all_f32, Hali. }
  unfold Binary32.update_heading.
  unfold Binary32.kSeparationFlockmates. rewrite Hal, Hcoh.
  unfold Binary32.get_flockmates at 1 2. rewrite Hs.
  destruct (Nat.eqb_spec (length source) 1) as [E|_]; [lia|].
  destruct (Nat.ltb_spec 1
              (length (List.filter
                 (fun m => Binary32.ltb
                             (Binary32.distance_2d (Binary32.pos_ self)
                                (Binary32.pos_ m))
                             (Binary32.of_Z 30)) source))) as [E|_]; [lia|].
  destruct (Nat.ltb_spec 1 (length source)) as [_|E]; [|lia].
  reflexivity.
Qed.

Lemma update_heading_by_branch_f32
    (atan2 : Binary32.float -> Binary32.float -> Binary32.float)
    (self : Binary32.Boid) (boids : list Binary32.Boid) :
  Binary32.branch_taken self boids = AlignmentBranch ->
  Binary32.update_heading atan2 self boids
  = Binary32.set_rot self
      (Binary32.kAverageRotation (Binary32.kAlignmentFlockmates self boids)).
Proof.
  unfold Binary32.branch_taken, Binary32.update_heading.
  destruct (Nat.eqb _ 1); [discriminate|].
  destruct (Nat.ltb 1 (length (Binary32.kSeparationFlockmates self boids)));
    [discriminate|].
  destruct (Nat.ltb 1 (length (Binary32.kAlignmentFlockmates self boids)));
    [reflexivity|].
  destruct (Nat.ltb 1 (length (Binary32.kCohesionFlockmates self boids)));
    discriminate.
Qed.

(** ** The alignment test: three boids heading 10, 20 and 30 degrees *)

Lemma alignment_only_inv_f32 (a b : Binary32.Vector2f) :
  Binary32.alignment_only a b = true ->
  Binary32.ltb (Binary32.distance_2d a b) (Binary32.of_Z 30) = false /\
  Binary32.ltb (Binary32.distance_2d a b) (Binary32.of_Z 90) = true.
Proof.
  unfold Binary32.alignment_only. intros H.
  apply andb_prop in H as [H30 H90].
  apply negb_true_iff in H30. split; assumption.
Qed.

Section ThreeAligned.
Variable transformPoint :
  Binary32.float -> Binary32.float -> Binary32.float -> Binary32.Vector2f.
Variable atan2 : Binary32.float -> Binary32.float -> Binary32.float.
Variables (dt : Binary32.float) (ws : sf.Vector2u).

(** The heading phase of a boid [self] that sits in a source of three
    whose two other members are in alignment range only. *)
Lemma three_aligned_heading_f32 (self a b c : Binary32.Boid) :
  Binary32.has_default_parameters self ->
  Binary32.finite_position (Binary32.pos_ self) = true ->
  (Binary32.pos_ a = Binary32.pos_ self /\
   Binary32.alignment_only (Binary32.pos_ self) (Binary32.pos_ b) = true /\
   Binary32.alignment_only (Binary32.pos_ self) (Binary32.pos_ c) = true) \/
  (Binary32.pos_ b = Binary32.pos_ self /\
   Binary32.alignment_only (Binary32.pos_ self) (Binary32.pos_ a) = true /\
   Binary32.alignment_only (Binary32.pos_ self) (Binary32.pos_ c) = true) \/
  (Binary32.pos_ c = Binary32.pos_ self /\
   Binary32.alignment_only (Binary32.pos_ self) (Binary32.pos_ a) = true /\
   Binary32.alignment_only (Binary32.pos_ self) (Binary32.pos_ b) = true) ->
  Binary32.update_heading atan2 self [a; b; c]
  = Binary32.set_rot self
      (Binary32.running_sum
         [Binary32.rot_ a; Binary32.rot_ b; Binary32.rot_ c] 3).
Proof.
  intros Hpar Hfin Hcases.
  pose proof (distance_2d_self_f32 _ Hfin) as Hself.
  rewrite (update_heading_all_aligned_f32 atan2 self [a; b; c] Hpar).
  - rewrite kAverageRotation_running_sum. reflexivity.
  - cbn [length]. lia.
  - destruct Hcases as [(E & H1 & H2)|[(E & H1 & H2)|(E & H1 & H2)]];
      apply alignment_only_inv_f32 in H1 as [_ H1];
      apply alignment_only_inv_f32 in H2 as [_ H2];
      repeat constructor; try assumption;
      rewrite E, Hself; reflexivity.
  - cbn [List.filter].
    destruct Hcases as [(E & H1 & H2)|[(E & H1 & H2)|(E & H1 & H2)]];
      apply alignment_only_inv_f32 in H1 as [H1 _];
      apply alignment_only_inv_f32 in H2 as [H2 _];
      rewrite E, Hself, H1, H2;
      change (Binary32.ltb Binary32.zero (Binary32.of_Z 30)) with true;
      cbn [length]; lia.
Qed.

Lemma three_aligned_tick_f32
    (b0 b1 b2 : Binary32.Boid) (p0 p1 p2 : Binary32.Vector2f)
    (c0 c1 c2 : sf.Color) :
  b0 = Binary32.Boid_new p0 (Binary32.of_Z 10) c0 ->
  b1 = Binary32.Boid_new p1 (Binary32.of_Z 20) c1 ->
  b2 = Binary32.Boid_new p2 (Binary32.of_Z 30) c2 ->
  let m0 := Binary32.update_position transformPoint dt b0 ws in
  let m1 := Binary32.update_position transformPoint dt b1 ws in
  let m2 := Binary32.update_position transformPoint dt b2 ws in
  Binary32.finite_position (Binary32.pos_ m0) = true ->
  Binary32.finite_position (Binary32.pos_ m1) = true ->
  Binary32.finite_position (Binary32.pos_ m2) = true ->
  Binary32.alignment_only (Binary32.pos_ m0) p1 = true ->
  Binary32.alignment_only (Binary32.pos_ m0) p2 = true ->
  Binary32.alignment_only (Binary32.pos_ m1) (Binary32.pos_ m0) = true ->
  Binary32.alignment_only (Binary32.pos_ m1) p2 = true ->
  Binary32.alignment_only (Binary32.pos_ m2) (Binary32.pos_ m0) = true ->
  Binary32.alignment_only (Binary32.pos_ m2) (Binary32.pos_ m1) = true ->
  Binary32.update_boids transformPoint atan2 dt [b0; b1; b2] ws
  = [ Binary32.set_rot m0 (Binary32.of_Z 20);
      Binary32.set_rot m1 (S754_finite false 12233386 (-19));
      Binary32.set_rot m2 (S754_finite false 12815928 (-19)) ].
Proof.
  intros E0 E1 E2 m0 m1 m2 F0 F1 F2 H01 H02 H10 H12 H20 H21.
  assert (P0 : Binary32.has_default_parameters m0)
    by (subst b0; repeat split).
  assert (P1 : Binary32.has_default_parameters m1)
    by (subst b1; repeat split).
  assert (P2 : Binary32.has_default_parameters m2)
    by (subst b2; repeat split).
  assert (R0 : Binary32.rot_ m0 = Binary32.of_Z 10) by (subst b0; reflexivity).
  assert (R1 : Binary32.rot_ m1 = Binary32.of_Z 20) by (subst b1; reflexivity).
  assert (R2 : Binary32.rot_ m2 = Binary32.of_Z 30) by (subst b2; reflexivity).
  assert (Q1 : Binary32.pos_ b1 = p1) by (subst b1; reflexivity).
  assert (Q2 : Binary32.pos_ b2 = p2) by (subst b2; reflexivity).
  unfold Binary32.update_boids.
  cbn [length seq fold_left].
  rewrite update_at_0_f32. fold m0.
  rewrite (three_aligned_heading_f32 m0 m0 b1 b2 P0 F0)
    by (left; rewrite Q1, Q2; auto).
  rewrite R0.
  replace (Binary32.rot_ b1) with (Binary32.of_Z 20) by (subst b1; reflexivity).
  replace (Binary32.rot_ b2) with (Binary32.of_Z 30) by (subst b2; reflexivity).
  change (Binary32.running_sum
            [Binary32.of_Z 10; Binary32.of_Z 20; Binary32.of_Z 30] 3)
    with (Binary32.of_Z 20).
  rewrite update_at_1_f32. fold m1.
  rewrite (three_aligned_heading_f32 m1 _ m1 b2 P1 F1)
    by (right; left; cbn [Binary32.set_rot Binary32.pos_]; rewrite Q2; auto).
  cbn [Binary32.set_rot Binary32.rot_].
  rewrite R1.
  replace (Binary32.rot_ b2) with (Binary32.of_Z 30) by (subst b2; reflexivity).
  change (Binary32.running_sum
            [Binary32.of_Z 20; Binary32.of_Z 20; Binary32.of_Z 30] 3)
    with (S754_finite false 12233386 (-19)).
  rewrite update_at_2_f32. fold m2.
  rewrite (three_aligned_heading_f32 m2 _ _ m2 P2 F2)
    by (right; right; cbn [Binary32.set_rot Binary32.pos_]; auto).
  cbn [Binary32.set_rot Binary32.rot_].
  rewrite R2.
  change (Binary32.running_sum
            [Binary32.of_Z 20; S754_finite false 12233386 (-19);
             Binary32.of_Z 30] 3)
    with (S754_finite false 12815928 (-19)).
  reflexivity.
Qed.

End ThreeAligned.

(** ** Distances in single precision *)

(** X1.  In single precision [distance_2d] is symmetric, never negative,
    and exactly zero from a point with finite coordinates to itself.  It
    does not satisfy the triangle inequality: from (0, 0) to (7, 7) it is
    10380373 * 2^-20 = 9.8994951, but from (0, 0) to (1, 1) plus from
    (1, 1) to (7, 7) it is 10380372 * 2^-20 = 9.8994942. *)
Theorem distance_2d_single_precision :
  (forall a b : Binary32.Vector2f,
     Binary32.distance_2d a b = Binary32.distance_2d b a) /\
  (forall a b : Binary32.Vector2f,
     Binary32.ltb (Binary32.distance_2d a b) Binary32.zero = false) /\
  (forall p : Binary32.Vector2f,
     Binary32.finite_position p = true ->
     Binary32.distance_2d p p = Binary32.zero) /\
  Binary32.distance_2d (Binary32.Vector2f_new 0 0) (Binary32.Vector2f_new 7 7)
  = S754_finite false 10380373 (-20) /\
  Binary32.add
    (Binary32.distance_2d (Binary32.Vector2f_new 0 0)
       (Binary32.Vector2f_new 1 1))
    (Binary32.distance_2d (Binary32.Vector2f_new 1 1)
       (Binary32.Vector2f_new 7 7))
  = S754_finite false 10380372 (-20) /\
  Binary32.ltb (S754_finite false 10380372 (-20))
               (S754_finite false 10380373 (-20)) = true.
Proof.
  split; [exact distance_2d_sym_f32|].
  split; [exact distance_2d_nonneg_f32|].
  split; [exact distance_2d_self_f32|].
  repeat split; vm_compute; reflexivity.
Qed.

(** ** The centre of mass in single precision *)

(** C9 (as the code has it).  [center_of_mass] returns, for each coordinate,
    the running sum, from [0.0f] and in the order of the set, of the member's
    coordinate divided by the number of members, every division and every
    addition rounded to single precision: the arithmetic mean up to that
    rounding, not exactly.  For a set with exactly one member whose
    coordinates are numbers it returns that member's position: equal as
    floats ([==]) for every such position, and the very same value unless a
    coordinate is [-0.0f], which comes back as [0.0f].  Two boids at (0, 0)
    and (3, 4) give their midpoint (1.5, 2) exactly; six boids at y = 7
    give y = 14680063 * 2^-21 = 6.99999952, below 7. *)
Theorem center_of_mass_rounded_mean :
  (forall boids : list Binary32.Boid,
     Binary32.center_of_mass boids
     = sf.mkVector2
         (Binary32.running_sum
            (map (fun b => sf.x (Binary32.pos_ b)) boids) (length boids))
         (Binary32.running_sum
            (map (fun b => sf.y (Binary32.pos_ b)) boids) (length boids))) /\
  (forall b : Binary32.Boid,
     Binary32.finite_position (Binary32.pos_ b) = true ->
     Binary32.eqb (sf.x (Binary32.center_of_mass [b]))
                  (sf.x (Binary32.pos_ b)) = true /\
     Binary32.eqb (sf.y (Binary32.center_of_mass [b]))
                  (sf.y (Binary32.pos_ b)) = true /\
     (sf.x (Binary32.pos_ b) <> S754_zero true ->
      sf.y (Binary32.pos_ b) <> S754_zero true ->
      Binary32.center_of_mass [b] = Binary32.pos_ b)) /\
  Binary32.center_of_mass
    [ Binary32.Boid_new (Binary32.Vector2f_new 0 0) Binary32.zero sf.White;
      Binary32.Boid_new (Binary32.Vector2f_new 3 4) Binary32.zero sf.White ]
  = sf.mkVector2 (Binary32.div (Binary32.of_Z 3) (Binary32.of_Z 2))
                 (Binary32.of_Z 2) /\
  sf.y (Binary32.center_of_mass Binary32.flock_sevens)
  = S754_finite false 14680063 (-21) /\
  Binary32.ltb (sf.y (Binary32.center_of_mass Binary32.flock_sevens))
               (Binary32.of_Z 7) = true.
Proof.
  split; [exact center_of_mass_running_sum|].
  split; [|split; [vm_compute; reflexivity|split; vm_compute; reflexivity]].
  intros b Hfin.
  unfold Binary32.finite_position in Hfin.
  apply andb_prop in Hfin as [Hx Hy].
  unfold Binary32.center_of_mass.
  cbn [fold_left length sf.x sf.y].
  rewrite (div_one_f32 _ Hx), (div_one_f32 _ Hy).
  split; [exact (eqb_add_zero_f32 _ Hx)|].
  split; [exact (eqb_add_zero_f32 _ Hy)|].
  intros Nx Ny. rewrite (add_zero_f32 _ Nx), (add_zero_f32 _ Ny).
  destruct (Binary32.pos_ b); reflexivity.
Qed.

(** C9 (as stated) fails on the code.  The six boids of
    [Binary32.flock_sevens] all have y = 7, so the arithmetic mean of their
    y coordinates is 7; [center_of_mass] returns y = 14680063 * 2^-21 =
    6.99999952, which is less than 7. *)
Lemma center_of_mass_below_mean :
  map (fun b => sf.y (Binary32.pos_ b)) Binary32.flock_sevens
  = [ Binary32.of_Z 7; Binary32.of_Z 7; Binary32.of_Z 7;
      Binary32.of_Z 7; Binary32.of_Z 7; Binary32.of_Z 7 ] /\
  sf.y (Binary32.center_of_mass Binary32.flock_sevens)
  = S754_finite false 14680063 (-21) /\
  Binary32.ltb (S754_finite false 14680063 (-21)) (Binary32.of_Z 7) = true /\
  Binary32.eqb (sf.y (Binary32.center_of_mass Binary32.flock_sevens))
               (Binary32.of_Z 7) = false.
Proof. repeat split; vm_compute; reflexivity. Qed.

(** ** The alignment branch in single precision *)

Lemma update_still_at_0_f32
    (transformPoint : Binary32.float -> Binary32.float -> Binary32.float ->
                      Binary32.Vector2f)
    (atan2 : Binary32.float -> Binary32.float -> Binary32.float)
    (a : Binary32.Boid) (l : list Binary32.Boid) (ws : sf.Vector2u) :
  Binary32.fixes_origin transformPoint ->
  Binary32.has_default_parameters a ->
  Binary32.is_finite (Binary32.rot_ a) = true ->
  Binary32.unwrapped ws (Binary32.pos_ a) = true ->
  Binary32.update transformPoint atan2 Binary32.zero (a :: l) 0 ws
  = Binary32.update_heading atan2 a (a :: l) :: l.
Proof.
  intros Hfix Hpar Hrot Hin.
  rewrite update_at_0_f32,
    (update_position_still_f32 _ _ _ Hfix Hpar Hrot Hin).
  reflexivity.
Qed.

(** C5 (as the code has it).  When the alignment branch fires, the new
    heading is the running sum, from [0.0f] and in the order of the
    alignment tier, of each member's heading divided by the number of
    members, every division and every addition rounded to single
    precision: a linear average of the stored headings up to that rounding,
    with no correction at the -180/180 boundary.  A boid of the source with
    the constructor's radii and a finite position is a member of its own
    tier.  With no time elapsed, two boids fifty units apart heading 179
    and -179 degrees leave the first heading exactly 0; six boids all
    heading 7 degrees leave the first heading 14680063 * 2^-21 =
    6.99999952 degrees. *)
Theorem alignment_heading_rounded_mean
    (transformPoint : Binary32.float -> Binary32.float -> Binary32.float ->
                      Binary32.Vector2f)
    (atan2 : Binary32.float -> Binary32.float -> Binary32.float) :
  (forall (self : Binary32.Boid) (boids : list Binary32.Boid),
     Binary32.branch_taken self boids = AlignmentBranch ->
     Binary32.update_heading atan2 self boids
     = Binary32.set_rot self
         (Binary32.running_sum
            (map Binary32.rot_ (Binary32.kAlignmentFlockmates self boids))
            (length (Binary32.kAlignmentFlockmates self boids)))) /\
  (forall (self : Binary32.Boid) (boids : list Binary32.Boid),
     Binary32.has_default_parameters self ->
     Binary32.finite_position (Binary32.pos_ self) = true ->
     In self boids ->
     In self (Binary32.kAlignmentFlockmates self boids)) /\
  (Binary32.fixes_origin transformPoint ->
   map Binary32.rot_
     (Binary32.update transformPoint atan2 Binary32.zero
        Binary32.flock_opposed 0 window_800_600)
   = [ Binary32.zero; Binary32.of_Z (-179) ]) /\
  (Binary32.fixes_origin transformPoint ->
   map Binary32.rot_
     (Binary32.update transformPoint atan2 Binary32.zero
        Binary32.flock_sevens 0 window_800_600)
   = [ S754_finite false 14680063 (-21); Binary32.of_Z 7; Binary32.of_Z 7;
       Binary32.of_Z 7; Binary32.of_Z 7; Binary32.of_Z 7 ]).
Proof.
  split; [|split; [exact self_in_alignment_tier_f32|split]].
  - intros self boids Hb.
    rewrite (update_heading_by_branch_f32 atan2 self boids Hb).
    rewrite kAverageRotation_running_sum. reflexivity.
  - intros Hfix. unfold Binary32.flock_opposed.
    rewrite (update_still_at_0_f32 _ atan2 _ _ _ Hfix)
      by (repeat split; vm_compute; reflexivity).
    vm_compute. reflexivity.
  - intros Hfix. unfold Binary32.flock_sevens.
    rewrite (update_still_at_0_f32 _ atan2 _ _ _ Hfix)
      by (repeat split; vm_compute; reflexivity).
    vm_compute. reflexivity.
Qed.

(** C5 (as stated) fails on the code.  The six boids of
    [Binary32.flock_sevens] all head 7 degrees, so the arithmetic mean of
    the headings is 7.  The first has the other five in alignment range
    and none in separation range; its update, with no time elapsed, takes
    the alignment branch over all six and stores 14680063 * 2^-21 =
    6.99999952 degrees, which is less than 7. *)
Lemma alignment_heading_below_mean :
  map Binary32.rot_ Binary32.flock_sevens
  = [ Binary32.of_Z 7; Binary32.of_Z 7; Binary32.of_Z 7;
      Binary32.of_Z 7; Binary32.of_Z 7; Binary32.of_Z 7 ] /\
  (forall self : Binary32.Boid,
     nth_error Binary32.flock_sevens 0 = Some self ->
     Binary32.branch_taken self Binary32.flock_sevens = AlignmentBranch /\
     Binary32.kAlignmentFlockmates self Binary32.flock_sevens
     = Binary32.flock_sevens) /\
  (forall (transformPoint : Binary32.float -> Binary32.float ->
                            Binary32.float -> Binary32.Vector2f)
          (atan2 : Binary32.float -> Binary32.float -> Binary32.float),
     Binary32.fixes_origin transformPoint ->
     map Binary32.rot_
       (Binary32.update transformPoint atan2 Binary32.zero
          Binary32.flock_sevens 0 window_800_600)
     = [ S754_finite false 14680063 (-21); Binary32.of_Z 7; Binary32.of_Z 7;
         Binary32.of_Z 7; Binary32.of_Z 7; Binary32.of_Z 7 ]) /\
  Binary32.ltb (S754_finite false 14680063 (-21)) (Binary32.of_Z 7) = true /\
  Binary32.eqb (S754_finite false 14680063 (-21)) (Binary32.of_Z 7) = false.
Proof.
  split; [vm_compute; reflexivity|].
  split; [intros self E; injection E as <-; split; vm_compute; reflexivity|].
  split; [|split; vm_compute; reflexivity].
  intros transformPoint atan2 Hfix. unfold Binary32.flock_sevens.
  rewrite (update_still_at_0_f32 _ atan2 _ _ _ Hfix)
    by (repeat split; vm_compute; reflexivity).
  vm_compute. reflexivity.
Qed.

(** ** The alignment test in single precision *)

(** C1 (as the code has it).  Three boids built by the constructor head
    10, 20 and 30 degrees.  Each, at the moment it is updated (after its
    own move; earlier boids at their new positions, later ones at their old
    ones), is at a finite position and has the other two inside its
    alignment radius and outside its separation radius.  After one tick the
    headings are, in index order, 20, 12233386 * 2^-19 = 23.3333321 and
    12815928 * 2^-19 = 1601991/65536 = 24.4444427 degrees: the first boid
    gets the rounded running sum of 10/3, 20/3 and 30/3, which is 20; the
    second that of the headings 20, 20, 30 it reads; the third that of 20,
    23.3333321, 30.  The positions are those of the position phase. *)
Theorem alignment_test_stored_headings
    (transformPoint : Binary32.float -> Binary32.float -> Binary32.float ->
                      Binary32.Vector2f)
    (atan2 : Binary32.float -> Binary32.float -> Binary32.float)
    (dt : Binary32.float) (window_size : sf.Vector2u)
    (p0 p1 p2 : Binary32.Vector2f) (c0 c1 c2 : sf.Color) :
  let b0 := Binary32.Boid_new p0 (Binary32.of_Z 10) c0 in
  let b1 := Binary32.Boid_new p1 (Binary32.of_Z 20) c1 in
  let b2 := Binary32.Boid_new p2 (Binary32.of_Z 30) c2 in
  let q0 := Binary32.pos_
              (Binary32.update_position transformPoint dt b0 window_size) in
  let q1 := Binary32.pos_
              (Binary32.update_position transformPoint dt b1 window_size) in
  let q2 := Binary32.pos_
              (Binary32.update_position transformPoint dt b2 window_size) in
  Binary32.finite_position q0 = true ->
  Binary32.finite_position q1 = true ->
  Binary32.finite_position q2 = true ->
  Binary32.alignment_only q0 p1 = true ->
  Binary32.alignment_only q0 p2 = true ->
  Binary32.alignment_only q1 q0 = true ->
  Binary32.alignment_only q1 p2 = true ->
  Binary32.alignment_only q2 q0 = true ->
  Binary32.alignment_only q2 q1 = true ->
  map Binary32.rot_
    (Binary32.update_boids transformPoint atan2 dt [b0; b1; b2] window_size)
  = [ Binary32.of_Z 20;
      S754_finite false 12233386 (-19);
      S754_finite false 12815928 (-19) ] /\
  map Binary32.pos_
    (Binary32.update_boids transformPoint atan2 dt [b0; b1; b2] window_size)
  = [q0; q1; q2].
Proof.
  intros b0 b1 b2 q0 q1 q2 F0 F1 F2 H01 H02 H10 H12 H20 H21.
  rewrite (three_aligned_tick_f32 transformPoint atan2 dt window_size
             b0 b1 b2 p0 p1 p2 c0 c1 c2
             eq_refl eq_refl eq_refl F0 F1 F2 H01 H02 H10 H12 H20 H21).
  split; reflexivity.
Qed.

(** On [Binary32.flock_three], with no time elapsed, where the transform
    is applied to the origin only. *)
Lemma alignment_test_stored_headings_witness :
  map Binary32.rot_
    (Binary32.update_boids Binary32.rotated_origin
       (fun _ _ => Binary32.zero) Binary32.zero
       Binary32.flock_three window_800_600)
  = [ Binary32.of_Z 20;
      S754_finite false 12233386 (-19);
      S754_finite false 12815928 (-19) ] /\
  map Binary32.pos_
    (Binary32.update_boids Binary32.rotated_origin
       (fun _ _ => Binary32.zero) Binary32.zero
       Binary32.flock_three window_800_600)
  = [ Binary32.Vector2f_new 100 100; Binary32.Vector2f_new 150 100;
      Binary32.Vector2f_new 100 150 ].
Proof.
  apply (alignment_test_stored_headings Binary32.rotated_origin
           (fun _ _ => Binary32.zero) Binary32.zero window_800_600
           (Binary32.Vector2f_new 100 100) (Binary32.Vector2f_new 150 100)
           (Binary32.Vector2f_new 100 150) sf.White sf.White sf.White);
    vm_compute; reflexivity.
Defined.

(** C1 (as stated) fails on the code.  The three boids of
    [Binary32.flock_three] head 10, 20 and 30 degrees and are pairwise
    inside alignment range and outside separation range; after one tick
    with no time elapsed the second heads 12233386 * 2^-19 = 23.3333321 and
    the third 12815928 * 2^-19 = 24.4444427 degrees, not 20. *)
Lemma alignment_test_later_boids_differ :
  map Binary32.rot_ Binary32.flock_three
  = [ Binary32.of_Z 10; Binary32.of_Z 20; Binary32.of_Z 30 ] /\
  map Binary32.pos_ Binary32.flock_three
  = [ Binary32.Vector2f_new 100 100; Binary32.Vector2f_new 150 100;
      Binary32.Vector2f_new 100 150 ] /\
  (Binary32.alignment_only (Binary32.Vector2f_new 100 100)
     (Binary32.Vector2f_new 150 100) = true /\
   Binary32.alignment_only (Binary32.Vector2f_new 100 100)
     (Binary32.Vector2f_new 100 150) = true /\
   Binary32.alignment_only (Binary32.Vector2f_new 150 100)
     (Binary32.Vector2f_new 100 100) = true /\
   Binary32.alignment_only (Binary32.Vector2f_new 150 100)
     (Binary32.Vector2f_new 100 150) = true /\
   Binary32.alignment_only (Binary32.Vector2f_new 100 150)
     (Binary32.Vector2f_new 100 100) = true /\
   Binary32.alignment_only (Binary32.Vector2f_new 100 150)
     (Binary32.Vector2f_new 150 100) = true) /\
  (forall (transformPoint : Binary32.float -> Binary32.float ->
                            Binary32.float -> Binary32.Vector2f)
          (atan2 : Binary32.float -> Binary32.float -> Binary32.float),
     Binary32.fixes_origin transformPoint ->
     map Binary32.rot_
       (Binary32.update_boids transformPoint atan2 Binary32.zero
          Binary32.flock_three window_800_600)
     = [ Binary32.of_Z 20;
         S754_finite false 12233386 (-19);
         S754_finite false 12815928 (-19) ]) /\
  Binary32.ltb (Binary32.of_Z 20) (S754_finite false 12233386 (-19)) = true /\
  Binary32.ltb (Binary32.of_Z 20) (S754_finite false 12815928 (-19)) = true.
Proof.
  split; [reflexivity|]. split; [reflexivity|].
  split; [repeat split; vm_compute; reflexivity|].
  split; [|split; vm_compute; reflexivity].
  intros transformPoint atan2 Hfix.
  unfold Binary32.flock_three.
  assert (Hstill : forall (px py r : Z),
            Binary32.is_finite (Binary32.of_Z r) = true ->
            Binary32.unwrapped window_800_600 (Binary32.Vector2f_new px py) = true ->
            Binary32.update_position transformPoint Binary32.zero
              (Binary32.Boid_new (Binary32.Vector2f_new px py)
                 (Binary32.of_Z r) sf.White) window_800_600
            = Binary32.Boid_new (Binary32.Vector2f_new px py)
                 (Binary32.of_Z r) sf.White).
  { intros px py r Hrot Hin.
    apply (update_position_still_f32 _ _ _ Hfix);
      [repeat split | exact Hrot | exact Hin]. }
  rewrite (three_aligned_tick_f32 transformPoint atan2 Binary32.zero
             window_800_600 _ _ _
             (Binary32.Vector2f_new 100 100) (Binary32.Vector2f_new 150 100)
             (Binary32.Vector2f_new 100 150) sf.White sf.White sf.White
             eq_refl eq_refl eq_refl);
    rewrite ?Hstill by (vm_compute; reflexivity);
    try (vm_compute; reflexivity).
Qed.
